(** * Synthetic biometric telemetry backend: sample generator and
      WebSocket connection handler ([main.py]).

    The development embeds three functions of [main.py]:

    - [generate_sample], the generator of one telemetry record from a
      timestamp and the draws of [random.random()];
    - [websocket_telemetry], the per-connection streaming loop with its
      two [except] clauses;
    - [test_database], the status endpoint that probes the optional
      [database] module and two environment variables.

    Numbers.  A Python [float] is a binary64 number, modelled by the real
    number it denotes.  The integer fields of a record come from [int(...)]
    of a float, and truncation makes the last bit of that float matter, so
    the operations that feed [int] are the binary64 ones: the exact result
    rounded to the nearest binary64 number, ties to even ([Float.fl]).  The
    float-valued fields are given by the exact real value of their
    expression, which the float the code returns approximates.  Overflow,
    infinities and NaN are outside the model.  Python's [int] is unbounded
    and is modelled by [Z]. *)

From Stdlib Require Import String Reals Lra Lia ZArith List.
Import ListNotations.

Open Scope R_scope.

(** ** Conversions between floats and integers *)

Module Float.

(** [int(x)] on a float: the fractional part is discarded, i.e. the value
    is truncated toward zero.  [Int_part] is the floor of the Standard
    Library. *)
Definition int (x : R) : Z :=
  if Rle_dec 0 x then Int_part x else (- Int_part (- x))%Z.

(** [round(x)] as the specification words it: the nearest integer.  This
    is Python's built-in [round] with one argument, which resolves a tie
    to the even neighbour.  It does not occur in [main.py]; it is kept
    apart to compare the specification's formulas with the code's. *)
Definition spec_round (x : R) : Z :=
  let f := Int_part x in
  let d := x - IZR f in
  if Rlt_dec d (1 / 2) then f
  else if Rlt_dec (1 / 2) d then (f + 1)%Z
  else if Z.even f then f else (f + 1)%Z.

(** Powers of two. *)
Definition bpow (e : Z) : R := powerRZ 2 e.

(** Rounding to the nearest integer, ties to even: the rule by which
    IEEE 754 rounds a scaled significand. *)
Definition rne (x : R) : Z := spec_round x.

(** The exponent of the unit in the last place of the binary64 numbers
    around a real of magnitude [a]: the least [e] from -1074 on with
    [a < 2^(e+53)], and 971 at most.  Below [2^-1021] this is the subnormal
    exponent -1074. *)
Fixpoint cexp_from (n : nat) (e : Z) (a : R) : Z :=
  match n with
  | O => e
  | S n' => if Rlt_dec a (bpow (e + 53)) then e else cexp_from n' (e + 1) a
  end.

Definition cexp (x : R) : Z := cexp_from 2045 (-1074) (Rabs x).

(** The binary64 number nearest to [x], ties to even. *)
Definition fl (x : R) : R := IZR (rne (x * bpow (- cexp x))) * bpow (cexp x).

(** [a * b] and [a / b] on floats: the exact result, rounded. *)
Definition mul (a b : R) : R := fl (a * b).

Definition div (a b : R) : R := fl (a / b).

(** [math.sin(a)], taken to return the binary64 number nearest to the
    sine of [a]. *)
Definition sin (a : R) : R := fl (Rtrigo_def.sin a).

End Float.

(** ** The random source

    [random.random()] reads and advances the state of the module-level
    generator.  The state is modelled by the stream of draws still to come;
    a computation using randomness is a state-passing function on it. *)

Module Rand.

Definition rng := nat -> R.

Definition t (A : Type) := rng -> A * rng.

Definition ret {A} (a : A) : t A := fun g => (a, g).

Definition bind {A B} (m : t A) (k : A -> t B) : t B :=
  fun g => let (a, g') := m g in k a g'.

(** One call of [random.random()]: the head of the stream is returned and
    the stream advances by one. *)
Definition random : t R := fun g => (g 0%nat, fun n => g (S n)).

(** A list comprehension whose element expression draws: the elements are
    computed from left to right. *)
Fixpoint for_each {A B} (f : A -> t B) (l : list A) : t (list B) :=
  match l with
  | [] => ret []
  | a :: l' => bind (f a) (fun b => bind (for_each f l') (fun bs => ret (b :: bs)))
  end.

(** The draws are those [random.random()] can return: the multiples of
    [2^-53] in the half-open unit interval. *)
Definition unit_interval (g : rng) : Prop :=
  forall i, 0 <= g i < 1 /\ exists k : Z, g i * 9007199254740992 = IZR k.

(** A source fixed to return [r] at every draw. *)
Definition constant (r : R) : rng := fun _ => r.

(** The stream [g] after [n] draws. *)
Definition drop (n : nat) (g : rng) : rng := fun i => g (n + i)%nat.

End Rand.

Notation "x <- m ;; k" := (Rand.bind m (fun x => k))
  (at level 61, m at next level, right associativity).

(** ** The telemetry record *)

Record Motion := { x : R; y : R; z : R }.

Record Eeg := { alpha : R; beta : R; gamma : R; theta : R; delta : R }.

Record TelemetrySample := {
  timestamp : Z;
  heartRate : Z;
  oxygenSaturation : Z;
  lactateThreshold : R;
  motion : Motion;
  emg : list R;
  eeg : Eeg
}.

(** ** [generate_sample]

    The draws are made in program order: heart rate, oxygen, lactate, then
    one per EMG channel for [i] in [range(8)]. *)

Definition emg_channel (ts : R) (i : nat) : Rand.t R :=
  r <- Rand.random ;;
  Rand.ret (0.5 * sin (ts / (0.08 + INR i * 0.01)) + (r - 0.5) * 0.2).

Definition generate_sample (ts : R) : Rand.t TelemetrySample :=
  r_hr <- Rand.random ;;
  let heart_rate :=
    (55 + Float.int (Float.mul 25 (Float.sin (Float.div ts 0.5)))
        + Float.int (Float.mul r_hr 5))%Z in
  r_ox <- Rand.random ;;
  let oxygen := (96 + Float.int (Float.mul r_ox 3))%Z in
  r_la <- Rand.random ;;
  let lactate := 3.8 + r_la * 0.6 in
  let motion := {| x := sin (ts / 0.4) * 0.5;
                   y := cos (ts / 0.5) * 0.5;
                   z := sin (ts / 0.7) * 0.5 |} in
  emg <- Rand.for_each (emg_channel ts) (seq 0 8) ;;
  let eeg := {| alpha := Rabs (sin (ts / 0.9));
                beta := Rabs (sin (ts / 0.7));
                gamma := Rabs (sin (ts / 0.5));
                theta := Rabs (sin (ts / 1.2));
                delta := Rabs (sin (ts / 1.5)) |} in
  Rand.ret {| timestamp := Float.int (Float.mul ts 1000);
              heartRate := heart_rate;
              oxygenSaturation := oxygen;
              lactateThreshold := lactate;
              motion := motion;
              emg := emg;
              eeg := eeg |}.

(** The record returned for timestamp [ts] when the draws to come are [g]. *)
Definition sample (ts : R) (g : Rand.rng) : TelemetrySample :=
  fst (generate_sample ts g).

(** A value of EMG channel [i] as a function of the channel's draw [r]: the
    element expression of the comprehension in [generate_sample]. *)
Definition emg_value (ts : R) (i : nat) (r : R) : R :=
  0.5 * sin (ts / (0.08 + INR i * 0.01)) + (r - 0.5) * 0.2.

(** A source that returns 0.25 for the eleven draws of one call and 0.75
    afterwards. *)
Definition step_source : Rand.rng :=
  fun i => if (i <? 11)%nat then 0.25 else 0.75.

(** ** [websocket_telemetry]

    The handler talks to its connection and to the event loop through
    awaited calls that either return or raise.  What is raised is
    classified the way the two [except] clauses of the handler do. *)

Module Handler.

(** Exceptions by class: [WebSocketDisconnect] (a subclass of
    [Exception]), any other instance of [Exception] with its [str], and
    instances of [BaseException] that are not instances of [Exception]
    (cancellation, keyboard interrupt), which no clause of the handler
    catches. *)
Inductive exn :=
| WebSocketDisconnect
| OtherException (descr : string)
| BaseOnly (descr : string).

(** [isinstance(e, Exception)]. *)
Definition is_Exception (e : exn) : bool :=
  match e with
  | BaseOnly _ => false
  | _ => true
  end.

(** [str(e)]. *)
Definition str (e : exn) : string :=
  match e with
  | WebSocketDisconnect => EmptyString
  | OtherException d => d
  | BaseOnly d => d
  end.

(** The result of an awaited call that returns nothing. *)
Inductive result :=
| Ok
| Raise (e : exn).

(** What the connection and the event loop answer: to [ws.accept()], at
    iteration [n] of the loop to [loop.time()], [ws.send_text(...)] and
    [asyncio.sleep(0.1)], and to [ws.close(...)]. *)
Record env := {
  accept : result;
  time : nat -> R;
  send_text : nat -> result;
  sleep : nat -> result;
  close : result
}.

(** The calls the handler makes, in order.  [SendText] carries the sample
    whose [json.dumps] text is sent. *)
Inductive action :=
| Accept
| SendText (payload : TelemetrySample)
| Sleep (seconds : R)
| Close (code : Z) (reason : string).

(** How a run of the handler ends: it returns, an exception leaves it, or
    it is still streaming when the fuel of the model runs out. *)
Inductive outcome :=
| Returned
| Propagated (e : exn)
| Streaming.

(** The [while True] loop from iteration [n] on, with the random source in
    state [g]: the calls made and the exception that ended the loop, if
    one did within [fuel] iterations. *)
Fixpoint stream (w : env) (fuel n : nat) (g : Rand.rng) : list action * option exn :=
  match fuel with
  | O => ([], None)
  | S fuel' =>
      let ts := time w n in
      let (smp, g') := generate_sample ts g in
      match send_text w n with
      | Raise e => ([SendText smp], Some e)
      | Ok =>
          match sleep w n with
          | Raise e => ([SendText smp; Sleep 0.1], Some e)
          | Ok =>
              let (tr, r) := stream w fuel' (S n) g' in
              (SendText smp :: Sleep 0.1 :: tr, r)
          end
      end
  end.

(** The [except Exception as e] clause: one [ws.close] with code 1011 and
    reason [str(e)], whose own [Exception] is passed over. *)
Definition close_with_reason (w : env) (e : exn) : list action * outcome :=
  ([Close 1011 (str e)],
   match close w with
   | Ok => Returned
   | Raise e' => if is_Exception e' then Returned else Propagated e'
   end).

(** The handler.  [ws.accept()] is awaited outside the [try]. *)
Definition websocket_telemetry (w : env) (fuel : nat) (g : Rand.rng)
  : list action * outcome :=
  match accept w with
  | Raise e => ([Accept], Propagated e)
  | Ok =>
      let (tr, r) := stream w fuel 0 g in
      match r with
      | None => (Accept :: tr, Streaming)
      | Some WebSocketDisconnect => (Accept :: tr, Returned)
      | Some e =>
          if is_Exception e then
            let (tr', o) := close_with_reason w e in (Accept :: tr ++ tr', o)
          else (Accept :: tr, Propagated e)
      end
  end.

(** The close attempts of a run. *)
Definition closes (tr : list action) : list action :=
  filter (fun a => match a with Close _ _ => true | _ => false end) tr.

(** Iterations before [n] go through: their send and their sleep return. *)
Definition quiet_before (w : env) (n : nat) : Prop :=
  forall k, (k < n)%nat -> send_text w k = Ok /\ sleep w k = Ok.

(** Iteration [n] raises [e], in its send or, the send done, in its sleep. *)
Definition fails_at (w : env) (n : nat) (e : exn) : Prop :=
  send_text w n = Raise e \/ (send_text w n = Ok /\ sleep w n = Raise e).

(** A connection whose third send fails with a transport error and whose
    close then fails too. *)
Definition broken_pipe : env :=
  {| accept := Ok;
     time := fun n => INR n * 0.1;
     send_text := fun n => if (n <? 2)%nat then Ok else Raise (OtherException "broken pipe");
     sleep := fun _ => Ok;
     close := Raise (OtherException "already closed") |}.

End Handler.

(** ** What a run of the handler sends *)

Module Trace.

Import Handler.

(** The samples of the [ws.send_text] calls of a trace, in order. *)
Fixpoint payloads (tr : list action) : list TelemetrySample :=
  match tr with
  | [] => []
  | SendText smp :: tr' => smp :: payloads tr'
  | _ :: tr' => payloads tr'
  end.

(** The sample of iteration [k] of a session that starts with the random
    source in state [g]: each earlier iteration has made eleven draws. *)
Definition sample_of_tick (w : env) (g : Rand.rng) (k : nat) : TelemetrySample :=
  sample (time w k) (Rand.drop (11 * k) g).

(** The calls of an iteration that goes through. *)
Definition tick (w : env) (g : Rand.rng) (k : nat) : list action :=
  [SendText (sample_of_tick w g k); Sleep 0.1].

(** The calls of an iteration that raises: the send, and the sleep when it
    is the sleep that raises. *)
Definition failing_tick (w : env) (g : Rand.rng) (k : nat) : list action :=
  match send_text w k with
  | Raise _ => [SendText (sample_of_tick w g k)]
  | Ok => [SendText (sample_of_tick w g k); Sleep 0.1]
  end.

(** The source [g] of iteration [n] is the session's source [g0] after
    [11 * n] draws. *)
Definition at_tick (g0 : Rand.rng) (n : nat) (g : Rand.rng) : Prop :=
  forall i, g i = g0 (11 * n + i)%nat.

(** The clock of the event loop does not go back. *)
Definition monotone_clock (w : env) : Prop :=
  forall i j, (i <= j)%nat -> time w i <= time w j.

(** A connection that stays open, on a loop that ticks every 0.1 s. *)
Definition steady : env :=
  {| accept := Ok;
     time := fun n => INR n * 0.1;
     send_text := fun _ => Ok;
     sleep := fun _ => Ok;
     close := Ok |}.

(** A session cancelled during its second sleep. *)
Definition cancelled : env :=
  {| accept := Ok;
     time := fun n => INR n * 0.1;
     send_text := fun _ => Ok;
     sleep := fun n => if (n <? 1)%nat then Ok else Raise (BaseOnly "cancelled");
     close := Ok |}.

End Trace.

(** ** [test_database]

    The status endpoint builds a dict, mutates it while it probes the
    optional [database] module, and returns it.  A Python [str] is modelled
    by the list of its code points, so that a slice counts characters. *)

Module Status.

Definition pystr := list N.

(** A literal made of ASCII characters. *)
Definition lit (s : string) : pystr :=
  map Ascii.N_of_ascii (String.list_ascii_of_string s).

(** The marks that open the messages: U+2705, U+274C, and U+26A0 followed
    by the variation selector U+FE0F. *)
Definition check_mark : pystr := [9989%N].
Definition cross_mark : pystr := [10060%N].
Definition warning_sign : pystr := [9888%N; 65039%N].

(** The values stored in the response. *)
Inductive value :=
| VNone
| VStr (s : pystr)
| VList (l : list pystr).

(** A dict with [str] keys, in insertion order.  [d[k] = v] replaces the
    value of a key that is present, in place, and appends a new key. *)
Definition dict := list (string * value).

Fixpoint setitem (d : dict) (k : string) (v : value) : dict :=
  match d with
  | [] => [(k, v)]
  | (k', v') :: d' =>
      if String.eqb k' k then (k', v) :: d' else (k', v') :: setitem d' k v
  end.

Fixpoint getitem (d : dict) (k : string) : option value :=
  match d with
  | [] => None
  | (k', v') :: d' => if String.eqb k' k then Some v' else getitem d' k
  end.

Definition keys (d : dict) : list string := map fst d.

(** An instance of [Exception]: whether it is an [ImportError], and its
    [str]. *)
Record exn := { import_error : bool; msg : pystr }.

Inductive outcome (A : Type) :=
| Returns (a : A)
| Raises (e : exn).
Arguments Returns {A} a.
Arguments Raises {A} e.

(** The attribute [name] of the [db] object: absent ([hasattr] is false),
    present with a value, or raising something else than [AttributeError]
    when it is read. *)
Inductive attr :=
| NoName
| Name (v : value)
| NameRaises (e : exn).

(** The [db] object, as far as the endpoint uses it.
    [list_collection_names()] returns a list of names or raises. *)
Record database := {
  name : attr;
  list_collection_names : outcome (list pystr)
}.

(** [from database import db]: it raises, or binds [db] to [None] or to an
    object. *)
Inductive import_result :=
| ImportFails (e : exn)
| Imported (db : option database).

(** What the endpoint reads: the [database] module and two environment
    variables ([os.getenv] returns [None] for an unset variable). *)
Record world := {
  database_module : import_result;
  DATABASE_URL : option pystr;
  DATABASE_NAME : option pystr
}.

(** Truth value of what [os.getenv] returns: [None] and the empty string
    are false. *)
Definition truthy (v : option pystr) : bool :=
  match v with
  | None | Some [] => false
  | Some (_ :: _) => true
  end.

Definition initial_response : dict :=
  [("backend"%string, VStr (check_mark ++ lit " Running"));
   ("database"%string, VStr (cross_mark ++ lit " Not Available"));
   ("database_url"%string, VNone);
   ("database_name"%string, VNone);
   ("connection_status"%string, VStr (lit "Not Connected"));
   ("collections"%string, VList [])].

(** The keys of the response, in the order of the dict display. *)
Definition response_keys : list string :=
  ["backend"; "database"; "database_url"; "database_name";
   "connection_status"; "collections"]%string.

(** The inner [try]: listing the collections. *)
Definition list_collections (db : database) (response : dict) : dict :=
  match list_collection_names db with
  | Returns collections =>
      let response := setitem response "collections" (VList (firstn 10 collections)) in
      setitem response "database" (VStr (check_mark ++ lit " Connected & Working"))
  | Raises e =>
      setitem response "database"
        (VStr (warning_sign ++ lit "  Connected but Error: " ++ firstn 50 (msg e)))
  end.

(** The body of the outer [try]: the response as far as it was updated,
    and the exception that left the body, if one did. *)
Definition probe (w : world) (response : dict) : dict * option exn :=
  match database_module w with
  | ImportFails e => (response, Some e)
  | Imported None =>
      (setitem response "database"
         (VStr (warning_sign ++ lit "  Available but not initialized")), None)
  | Imported (Some db) =>
      let response := setitem response "database" (VStr (check_mark ++ lit " Available")) in
      let response := setitem response "database_url" (VStr (check_mark ++ lit " Configured")) in
      match name db with
      | NameRaises e => (response, Some e)
      | NoName =>
          let response := setitem response "database_name" (VStr (check_mark ++ lit " Connected")) in
          let response := setitem response "connection_status" (VStr (lit "Connected")) in
          (list_collections db response, None)
      | Name v =>
          let response := setitem response "database_name" v in
          let response := setitem response "connection_status" (VStr (lit "Connected")) in
          (list_collections db response, None)
      end
  end.

(** The two [except] clauses of the outer [try]. *)
Definition handle (r : dict * option exn) : dict :=
  match r with
  | (response, None) => response
  | (response, Some e) =>
      if import_error e then
        setitem response "database"
          (VStr (cross_mark ++ lit " Database module not found (run enable-database first)"))
      else
        setitem response "database" (VStr (cross_mark ++ lit " Error: " ++ firstn 50 (msg e)))
  end.

(** The report on an environment variable. *)
Definition set_or_not (v : option pystr) : value :=
  VStr (if truthy v then check_mark ++ lit " Set" else cross_mark ++ lit " Not Set").

Definition test_database (w : world) : dict :=
  let response := handle (probe w initial_response) in
  let response := setitem response "database_url" (set_or_not (DATABASE_URL w)) in
  let response := setitem response "database_name" (set_or_not (DATABASE_NAME w)) in
  response.

(** The collection names the probe obtained: those [list_collection_names]
    returned, when the probe got that far. *)
Definition listed (w : world) : list pystr :=
  match database_module w with
  | Imported (Some db) =>
      match name db, list_collection_names db with
      | NameRaises _, _ => []
      | _, Returns cs => cs
      | _, Raises _ => []
      end
  | _ => []
  end.

(** The probe went all the way: [db] is an object, reading its name did
    not raise and the collections were listed. *)
Definition working (w : world) : bool :=
  match database_module w with
  | Imported (Some db) =>
      match name db, list_collection_names db with
      | NameRaises _, _ => false
      | _, Returns _ => true
      | _, Raises _ => false
      end
  | _ => false
  end.

(** A [db] object was imported and reading its name did not raise. *)
Definition connected (w : world) : bool :=
  match database_module w with
  | Imported (Some db) =>
      match name db with
      | NameRaises _ => false
      | _ => true
      end
  | _ => false
  end.

(** A database with twelve collections named by one letter, and a [name]
    whose reading raises an [ImportError]. *)
Definition twelve : list pystr :=
  map (fun c => [c]) [97; 98; 99; 100; 101; 102; 103; 104; 105; 106; 107; 108]%N.

Definition moody_db : database :=
  {| name := NameRaises {| import_error := true; msg := lit "No module named dns" |};
     list_collection_names := Returns twelve |}.

Definition moody : world :=
  {| database_module := Imported (Some moody_db);
     DATABASE_URL := Some [];
     DATABASE_NAME := Some (lit "prod") |}.

End Status.

(** * Properties *)

(** ** Truncation *)

Section Truncation.

Lemma Int_part_bounds (r : R) : IZR (Int_part r) <= r < IZR (Int_part r) + 1.
Proof.
  destruct (base_Int_part r) as [H1 H2]. lra.
Qed.

Lemma int_nonneg (r : R) :
  0 <= r -> IZR (Float.int r) <= r < IZR (Float.int r) + 1.
Proof.
  intros H. unfold Float.int. destruct (Rle_dec 0 r); [|contradiction].
  apply Int_part_bounds.
Qed.

Lemma int_neg (r : R) :
  r < 0 -> r <= IZR (Float.int r) < r + 1.
Proof.
  intros H. unfold Float.int. destruct (Rle_dec 0 r); [lra|].
  rewrite opp_IZR. pose proof (Int_part_bounds (- r)). lra.
Qed.

(** Truncation is determined by the unit interval the argument lies in. *)
Lemma int_eq_nonneg (r : R) (k : Z) :
  0 <= r -> IZR k <= r < IZR k + 1 -> Float.int r = k.
Proof.
  intros H0 [H1 H2]. pose proof (int_nonneg r H0) as [H3 H4].
  assert (Hlt1 : IZR (Float.int r) < IZR (k + 1)) by (rewrite plus_IZR; lra).
  assert (Hlt2 : IZR k < IZR (Float.int r + 1)) by (rewrite plus_IZR; lra).
  apply lt_IZR in Hlt1, Hlt2. lia.
Qed.

Lemma int_eq_neg (r : R) (k : Z) :
  r < 0 -> IZR k - 1 < r <= IZR k -> Float.int r = k.
Proof.
  intros H0 [H1 H2]. pose proof (int_neg r H0) as [H3 H4].
  assert (Hlt1 : IZR (Float.int r) < IZR (k + 1)) by (rewrite plus_IZR; lra).
  assert (Hlt2 : IZR k < IZR (Float.int r + 1)) by (rewrite plus_IZR; lra).
  apply lt_IZR in Hlt1, Hlt2. lia.
Qed.

(** Truncation never leaves an interval with integer ends around zero. *)
Lemma int_between (r : R) (lo hi : Z) :
  (lo <= 0 <= hi)%Z -> IZR lo <= r <= IZR hi ->
  (lo <= Float.int r <= hi)%Z.
Proof.
  intros [Hlo Hhi] [H1 H2].
  pose proof (IZR_le _ _ Hlo) as Hlo'. pose proof (IZR_le _ _ Hhi) as Hhi'.
  destruct (Rle_dec 0 r) as [Hr|Hr].
  - pose proof (int_nonneg r Hr) as [H3 H4].
    assert (Ha : IZR (Float.int r) < IZR (hi + 1)) by (rewrite plus_IZR; lra).
    assert (Hb : IZR (lo - 1) < IZR (Float.int r)).
    { rewrite minus_IZR.
      assert (IZR (-1) < IZR (Float.int r)); [|lra].
      assert (Hc : IZR 0 < IZR (Float.int r + 1)) by (rewrite plus_IZR; lra).
      apply lt_IZR in Hc. apply IZR_lt. lia. }
    apply lt_IZR in Ha, Hb. lia.
  - apply Rnot_le_lt in Hr. pose proof (int_neg r Hr) as [H3 H4].
    assert (Ha : IZR (lo - 1) < IZR (Float.int r)) by (rewrite minus_IZR; lra).
    assert (Hb : IZR (Float.int r) < IZR 1) by lra.
    apply lt_IZR in Ha, Hb. lia.
Qed.

(** A non-negative float below the integer [n] truncates below [n]. *)
Lemma int_below (r : R) (n : Z) :
  0 <= r < IZR n -> (0 <= Float.int r < n)%Z.
Proof.
  intros [H0 H1]. pose proof (int_nonneg r H0) as [H2 H3].
  assert (Ha : IZR (Float.int r) < IZR n) by lra.
  assert (Hb : IZR (-1) < IZR (Float.int r)) by lra.
  apply lt_IZR in Ha, Hb. lia.
Qed.

End Truncation.

(** ** The generator unfolded *)

Section Generator.

Variable ts : R.

(** A comprehension over the channels [l] consumes one draw per channel,
    in order: the channel at position [k] of [l] gets draw [k]. *)
Lemma for_each_emg (l : list nat) (g : Rand.rng) :
  Rand.for_each (emg_channel ts) l g =
  (map (fun k => emg_value ts (nth k l 0%nat) (g k)) (seq 0 (length l)),
   Rand.drop (length l) g).
Proof.
  revert g. induction l as [|a l IH]; intros g.
  - reflexivity.
  - cbn [Rand.for_each]. unfold Rand.bind at 1.
    unfold emg_channel at 1. unfold Rand.bind at 1, Rand.random, Rand.ret at 1.
    unfold Rand.bind at 1. rewrite IH. unfold Rand.ret.
    cbn [length seq map nth]. f_equal. f_equal.
    rewrite <- seq_shift, map_map. reflexivity.
Qed.

End Generator.

(** [generate_sample] makes eleven draws: draw 0 for the heart rate, draw 1
    for the oxygen saturation, draw 2 for the lactate threshold and draw
    [3 + i] for EMG channel [i]. *)
Lemma generate_sample_eq (ts : R) (g : Rand.rng) :
  generate_sample ts g =
  ({| timestamp := Float.int (Float.mul ts 1000);
      heartRate := 55 + Float.int (Float.mul 25 (Float.sin (Float.div ts 0.5)))
                      + Float.int (Float.mul (g 0%nat) 5);
      oxygenSaturation := 96 + Float.int (Float.mul (g 1%nat) 3);
      lactateThreshold := 3.8 + g 2%nat * 0.6;
      motion := {| x := sin (ts / 0.4) * 0.5;
                   y := cos (ts / 0.5) * 0.5;
                   z := sin (ts / 0.7) * 0.5 |};
      emg := map (fun i => emg_value ts i (g (3 + i)%nat)) (seq 0 8);
      eeg := {| alpha := Rabs (sin (ts / 0.9));
                beta := Rabs (sin (ts / 0.7));
                gamma := Rabs (sin (ts / 0.5));
                theta := Rabs (sin (ts / 1.2));
                delta := Rabs (sin (ts / 1.5)) |} |},
   Rand.drop 11 g).
Proof.
  unfold generate_sample, Rand.bind, Rand.random.
  rewrite for_each_emg. reflexivity.
Qed.

Lemma heartRate_eq (ts : R) (g : Rand.rng) :
  heartRate (sample ts g) =
  (55 + Float.int (Float.mul 25 (Float.sin (Float.div ts 0.5)))
      + Float.int (Float.mul (g 0%nat) 5))%Z.
Proof. unfold sample. rewrite generate_sample_eq. reflexivity. Qed.

Lemma oxygenSaturation_eq (ts : R) (g : Rand.rng) :
  oxygenSaturation (sample ts g) = (96 + Float.int (Float.mul (g 1%nat) 3))%Z.
Proof. unfold sample. rewrite generate_sample_eq. reflexivity. Qed.

Lemma timestamp_eq (ts : R) (g : Rand.rng) :
  timestamp (sample ts g) = Float.int (Float.mul ts 1000).
Proof. unfold sample. rewrite generate_sample_eq. reflexivity. Qed.

Lemma emg_eq (ts : R) (g : Rand.rng) :
  emg (sample ts g) = map (fun i => emg_value ts i (g (3 + i)%nat)) (seq 0 8).
Proof. unfold sample. rewrite generate_sample_eq. reflexivity. Qed.

(** ** Nearest-integer rounding, for comparison *)

Section Rounding.


Lemma spec_round_up (r : R) (k : Z) :
  IZR k + 1 / 2 < r < IZR k + 1 -> Float.spec_round r = (k + 1)%Z.
Proof.
  intros [H1 H2].
  assert (Hk : k = Int_part r) by (apply Int_part_spec; lra).
  unfold Float.spec_round. rewrite <- Hk.
  destruct (Rlt_dec (r - IZR k) (1 / 2)); [lra|].
  destruct (Rlt_dec (1 / 2) (r - IZR k)); [reflexivity | lra].
Qed.

(** [spec_round] is a rounding to nearest: it is within one half of its
    argument. *)
Lemma spec_round_nearest (r : R) : Rabs (r - IZR (Float.spec_round r)) <= 1 / 2.
Proof.
  pose proof (Int_part_bounds r) as [H1 H2].
  unfold Float.spec_round.
  destruct (Rlt_dec (r - IZR (Int_part r)) (1 / 2)).
  - apply Rabs_le. lra.
  - destruct (Rlt_dec (1 / 2) (r - IZR (Int_part r))).
    + rewrite plus_IZR. apply Rabs_le. lra.
    + destruct (Z.even (Int_part r)).
      * apply Rabs_le. lra.
      * rewrite plus_IZR. apply Rabs_le. lra.
Qed.

End Rounding.

(** ** Binary64 rounding *)

Section Powers.
Import Float.

Lemma bpow_pos (e : Z) : 0 < bpow e.
Proof. apply powerRZ_lt. lra. Qed.

Lemma bpow_add (a b : Z) : bpow (a + b) = bpow a * bpow b.
Proof. apply powerRZ_add. lra. Qed.

Lemma bpow_cancel (e : Z) : bpow e * bpow (- e) = 1.
Proof.
  rewrite <- bpow_add, Z.add_opp_diag_r. reflexivity.
Qed.

Lemma bpow_IZR (k : Z) : (0 <= k)%Z -> bpow k = IZR (2 ^ k).
Proof.
  intros Hk. unfold bpow.
  rewrite <- (Z2Nat.id k Hk) at 1.
  rewrite <- pow_powerRZ, pow_IZR. rewrite (Z2Nat.id k Hk). reflexivity.
Qed.

Lemma bpow_ge_1 (k : Z) : (0 <= k)%Z -> 1 <= bpow k.
Proof.
  intros Hk. rewrite bpow_IZR by exact Hk.
  apply IZR_le. pose proof (Z.pow_pos_nonneg 2 k ltac:(lia) Hk). lia.
Qed.

Lemma bpow_le (a b : Z) : (a <= b)%Z -> bpow a <= bpow b.
Proof.
  intros H. replace b with (a + (b - a))%Z by lia. rewrite bpow_add.
  pose proof (bpow_pos a). pose proof (bpow_ge_1 (b - a) ltac:(lia)). nra.
Qed.

Lemma bpow_lt (a b : Z) : (a < b)%Z -> bpow a < bpow b.
Proof.
  intros H. replace b with (a + 1 + (b - a - 1))%Z by lia. rewrite !bpow_add.
  pose proof (bpow_pos a). pose proof (bpow_ge_1 (b - a - 1) ltac:(lia)).
  change (bpow 1) with (powerRZ 2 1). rewrite powerRZ_1. nra.
Qed.

Lemma bpow_lt_inv (a b : Z) : bpow a < bpow b -> (a < b)%Z.
Proof.
  intros H. destruct (Z_lt_le_dec a b) as [Hlt|Hge]; [exact Hlt|].
  pose proof (bpow_le b a Hge). lra.
Qed.

End Powers.

Section Nearest.
Import Float.

Lemma rne_error (x : R) : Rabs (IZR (rne x) - x) <= 1 / 2.
Proof.
  pose proof (Int_part_bounds x) as [H1 H2].
  unfold rne, spec_round.
  destruct (Rlt_dec (x - IZR (Int_part x)) (1 / 2)).
  - apply Rabs_le. lra.
  - destruct (Rlt_dec (1 / 2) (x - IZR (Int_part x))).
    + rewrite plus_IZR. apply Rabs_le. lra.
    + destruct (Z.even (Int_part x)).
      * apply Rabs_le. lra.
      * rewrite plus_IZR. apply Rabs_le. lra.
Qed.

(** The value of [rne] from the half-open unit interval of the argument. *)
Lemma rne_floor_or_next (x : R) :
  rne x = Int_part x \/ rne x = (Int_part x + 1)%Z.
Proof.
  unfold rne, spec_round.
  destruct (Rlt_dec _ _); [left; reflexivity|].
  destruct (Rlt_dec _ _); [right; reflexivity|].
  destruct (Z.even _); [left | right]; reflexivity.
Qed.

Lemma rne_IZR (m : Z) : rne (IZR m) = m.
Proof.
  assert (Hk : m = Int_part (IZR m)) by (apply Int_part_spec; lra).
  unfold rne, spec_round. rewrite <- Hk.
  destruct (Rlt_dec (IZR m - IZR m) (1 / 2)); [reflexivity | lra].
Qed.

Lemma rne_below_half (x : R) (k : Z) :
  IZR k <= x < IZR k + 1 / 2 -> rne x = k.
Proof.
  intros [H1 H2].
  assert (Hk : k = Int_part x) by (apply Int_part_spec; lra).
  unfold rne, spec_round. rewrite <- Hk.
  destruct (Rlt_dec (x - IZR k) (1 / 2)); [reflexivity | lra].
Qed.

Lemma rne_above_half (x : R) (k : Z) :
  IZR k + 1 / 2 < x < IZR k + 1 -> rne x = (k + 1)%Z.
Proof.
  intros [H1 H2].
  assert (Hk : k = Int_part x) by (apply Int_part_spec; lra).
  unfold rne, spec_round. rewrite <- Hk.
  destruct (Rlt_dec (x - IZR k) (1 / 2)); [lra|].
  destruct (Rlt_dec (1 / 2) (x - IZR k)); [reflexivity | lra].
Qed.

Lemma rne_tie (k : Z) :
  rne (IZR k + 1 / 2) = if Z.even k then k else (k + 1)%Z.
Proof.
  assert (Hk : k = Int_part (IZR k + 1 / 2)) by (apply Int_part_spec; lra).
  unfold rne, spec_round. rewrite <- Hk.
  destruct (Rlt_dec (IZR k + 1 / 2 - IZR k) (1 / 2)); [lra|].
  destruct (Rlt_dec (1 / 2) (IZR k + 1 / 2 - IZR k)); [lra | reflexivity].
Qed.

Lemma Int_part_monotone (x y : R) : x <= y -> (Int_part x <= Int_part y)%Z.
Proof.
  intros H. pose proof (Int_part_bounds x) as [H1 H2].
  pose proof (Int_part_bounds y) as [H3 H4].
  assert (Hlt : IZR (Int_part x) < IZR (Int_part y + 1)) by (rewrite plus_IZR; lra).
  apply lt_IZR in Hlt. lia.
Qed.

Lemma rne_monotone (x y : R) : x <= y -> (rne x <= rne y)%Z.
Proof.
  intros H. pose proof (Int_part_monotone x y H) as Hf.
  destruct (Z.eq_dec (Int_part x) (Int_part y)) as [Heq|Hne].
  - unfold rne, spec_round. rewrite Heq.
    destruct (Rlt_dec (x - IZR (Int_part y)) (1 / 2));
      destruct (Rlt_dec (y - IZR (Int_part y)) (1 / 2)); try lia; try lra;
      destruct (Rlt_dec (1 / 2) (x - IZR (Int_part y)));
      destruct (Rlt_dec (1 / 2) (y - IZR (Int_part y))); try lia; try lra;
      destruct (Z.even (Int_part y)); lia.
  - destruct (rne_floor_or_next x) as [Hx|Hx], (rne_floor_or_next y) as [Hy|Hy];
      rewrite Hx, Hy; lia.
Qed.

Lemma Int_part_opp (x : R) :
  x <> IZR (Int_part x) -> Int_part (- x) = (- Int_part x - 1)%Z.
Proof.
  intros Hne. pose proof (Int_part_bounds x) as [H1 H2].
  symmetry. apply Int_part_spec. rewrite minus_IZR, opp_IZR. lra.
Qed.

Lemma rne_opp (x : R) : rne (- x) = (- rne x)%Z.
Proof.
  destruct (Req_dec x (IZR (Int_part x))) as [Heq|Hne].
  - rewrite Heq, <- opp_IZR, !rne_IZR. reflexivity.
  - pose proof (Int_part_bounds x) as [H1 H2].
    set (f := Int_part x) in *.
    destruct (Rtotal_order (x - IZR f) (1 / 2)) as [Hlt|[Hhalf|Hgt]].
    + rewrite (rne_below_half x f) by lra.
      replace (- f)%Z with (- f - 1 + 1)%Z by lia.
      apply rne_above_half. rewrite minus_IZR, opp_IZR. lra.
    + replace x with (IZR f + 1 / 2) by lra.
      replace (- (IZR f + 1 / 2)) with (IZR (- f - 1) + 1 / 2)
        by (rewrite minus_IZR, opp_IZR; lra).
      rewrite !rne_tie.
      replace (- f - 1)%Z with (- (f + 1))%Z by lia.
      rewrite Z.even_opp, Z.even_add. cbn [Z.even].
      destruct (Z.even f); cbn; lia.
    + rewrite (rne_above_half x f) by lra.
      replace (- (f + 1))%Z with (- f - 1)%Z by lia.
      apply rne_below_half. rewrite minus_IZR, opp_IZR. lra.
Qed.

End Nearest.

Section Binary64.
Import Float.

Lemma cexp_from_spec (n : nat) :
  forall e a, let c := cexp_from n e a in
    (e <= c <= e + Z.of_nat n)%Z /\
    ((c < e + Z.of_nat n)%Z -> a < bpow (c + 53)) /\
    ((e < c)%Z -> bpow (c + 52) <= a).
Proof.
  induction n as [|n IH]; intros e a; cbn [cexp_from].
  - cbn zeta. split; [lia|]. split; intros; lia.
  - destruct (Rlt_dec a (bpow (e + 53))) as [Hlt|Hge].
    + cbn zeta. split; [lia|]. split; [intros _; exact Hlt | intros; lia].
    + specialize (IH (e + 1)%Z a). cbn zeta in IH |- *.
      destruct IH as (Hr & Hup & Hlo). split; [lia|]. split.
      * intros Hc. apply Hup. lia.
      * intros Hc. destruct (Z.eq_dec (cexp_from n (e + 1) a) (e + 1)) as [Heq|Hne].
        -- rewrite Heq. replace (e + 1 + 52)%Z with (e + 53)%Z by lia.
           apply Rnot_lt_le, Hge.
        -- apply Hlo. lia.
Qed.

Lemma cexp_range (x : R) : (-1074 <= cexp x <= 971)%Z.
Proof.
  pose proof (cexp_from_spec 2045 (-1074) (Rabs x)) as (H & _). cbn zeta in H.
  unfold cexp. lia.
Qed.

Lemma cexp_upper (x : R) : (cexp x < 971)%Z -> Rabs x < bpow (cexp x + 53).
Proof.
  pose proof (cexp_from_spec 2045 (-1074) (Rabs x)) as (_ & H & _). cbn zeta in H.
  unfold cexp. intros Hc. apply H. lia.
Qed.

Lemma cexp_lower (x : R) : (-1074 < cexp x)%Z -> bpow (cexp x + 52) <= Rabs x.
Proof.
  pose proof (cexp_from_spec 2045 (-1074) (Rabs x)) as (_ & _ & H). cbn zeta in H.
  unfold cexp. exact H.
Qed.

(** Below [2^(e+53)] the exponent is at most [e]. *)
Lemma cexp_le (x : R) (e : Z) :
  (-1074 <= e)%Z -> Rabs x < bpow (e + 53) -> (cexp x <= e)%Z.
Proof.
  intros He Hx. destruct (Z_le_gt_dec (cexp x) e) as [Hle|Hgt]; [exact Hle|].
  pose proof (cexp_lower x ltac:(lia)) as Hlo.
  pose proof (bpow_le (e + 53) (cexp x + 52) ltac:(lia)). lra.
Qed.

(** From [2^(e+52)] on the exponent is at least [e]. *)
Lemma cexp_ge (x : R) (e : Z) :
  (e <= 971)%Z -> bpow (e + 52) <= Rabs x -> (e <= cexp x)%Z.
Proof.
  intros He Hx. destruct (Z_le_gt_dec e (cexp x)) as [Hle|Hgt]; [exact Hle|].
  pose proof (cexp_upper x ltac:(lia)) as Hup.
  pose proof (bpow_le (cexp x + 53) (e + 52) ltac:(lia)). lra.
Qed.

Lemma cexp_eq (x : R) (e : Z) :
  (-1074 <= e <= 971)%Z ->
  bpow (e + 52) <= Rabs x < bpow (e + 53) -> cexp x = e.
Proof.
  intros He [Hlo Hup].
  pose proof (cexp_le x e ltac:(lia) Hup). pose proof (cexp_ge x e ltac:(lia) Hlo). lia.
Qed.

Lemma cexp_monotone (x y : R) : Rabs x <= Rabs y -> (cexp x <= cexp y)%Z.
Proof.
  intros H. destruct (Z_le_gt_dec (cexp x) (cexp y)) as [Hle|Hgt]; [exact Hle|].
  pose proof (cexp_range x). pose proof (cexp_range y).
  pose proof (cexp_lower x ltac:(lia)) as Hlo.
  pose proof (cexp_upper y ltac:(lia)) as Hup.
  pose proof (bpow_le (cexp y + 53) (cexp x + 52) ltac:(lia)). lra.
Qed.

Lemma cexp_opp (x : R) : cexp (- x) = cexp x.
Proof. unfold cexp. rewrite Rabs_Ropp. reflexivity. Qed.

Lemma fl_opp (x : R) : fl (- x) = - fl x.
Proof.
  unfold fl. rewrite cexp_opp. generalize (cexp x) as c. intros c.
  replace (- x * bpow (- c)) with (- (x * bpow (- c))) by ring.
  rewrite rne_opp, opp_IZR. ring.
Qed.

(** The value of the rounding when the exponent is known. *)
Lemma fl_eval (x : R) (e m : Z) :
  cexp x = e -> rne (x * bpow (- e)) = m -> fl x = IZR m * bpow e.
Proof. intros He Hm. unfold fl. rewrite He, Hm. reflexivity. Qed.

(** A multiple of [2^e] is left as it is by rounding on a finer grid. *)
Lemma grid_round (m e c : Z) :
  (c <= e)%Z ->
  IZR (rne (IZR m * bpow e * bpow (- c))) * bpow c = IZR m * bpow e.
Proof.
  intros Hc.
  assert (Hs : IZR m * bpow e * bpow (- c) = IZR (m * 2 ^ (e - c))).
  { rewrite mult_IZR, <- bpow_IZR by lia.
    replace (e - c)%Z with (e + - c)%Z by lia. rewrite bpow_add. ring. }
  rewrite Hs, rne_IZR, mult_IZR, <- bpow_IZR by lia.
  rewrite Rmult_assoc, <- bpow_add.
  replace (e - c + c)%Z with e by lia. reflexivity.
Qed.

(** A multiple of [2^e] below [2^(e+53)] is a binary64 number: rounding
    leaves it as it is. *)
Lemma fl_grid (m e : Z) :
  (-1074 <= e)%Z -> (Z.abs m < 2 ^ 53)%Z -> fl (IZR m * bpow e) = IZR m * bpow e.
Proof.
  intros He Hm. unfold fl. apply grid_round. apply cexp_le; [exact He|].
  rewrite Rabs_mult, (Rabs_pos_eq (bpow e)) by (apply Rlt_le, bpow_pos).
  rewrite bpow_add, (bpow_IZR 53) by lia. rewrite Rabs_Zabs.
  apply IZR_lt in Hm. pose proof (bpow_pos e). nra.
Qed.

Lemma fl_0 : fl 0 = 0.
Proof.
  replace 0 with (IZR 0 * bpow 0) at 1 by (unfold bpow; cbn; lra).
  rewrite fl_grid by (cbn; lia). unfold bpow. cbn. lra.
Qed.

(** An integer below [2^53] in magnitude is a binary64 number. *)
Lemma fl_IZR (m : Z) : (Z.abs m < 2 ^ 53)%Z -> fl (IZR m) = IZR m.
Proof.
  intros Hm. replace (IZR m) with (IZR m * bpow 0) by (unfold bpow; cbn; lra).
  apply fl_grid; [lia | exact Hm].
Qed.

(** The rounding error is at most half a unit in the last place. *)
Lemma fl_error (x : R) : Rabs (fl x - x) <= bpow (cexp x) / 2.
Proof.
  unfold fl. generalize (cexp x) as c. intros c.
  pose proof (rne_error (x * bpow (- c))) as H.
  pose proof (bpow_pos c) as Hp.
  replace (IZR (rne (x * bpow (- c))) * bpow c - x)
    with ((IZR (rne (x * bpow (- c))) - x * bpow (- c)) * bpow c).
  - rewrite Rabs_mult, (Rabs_pos_eq (bpow c)) by lra. nra.
  - rewrite Rmult_minus_distr_r, Rmult_assoc, (Rmult_comm (bpow (- c))), bpow_cancel.
    ring.
Qed.

Lemma fl_error_below (x : R) (e : Z) :
  (-1074 <= e)%Z -> Rabs x < bpow (e + 53) -> Rabs (fl x - x) <= bpow e / 2.
Proof.
  intros He Hx. pose proof (fl_error x) as H.
  pose proof (bpow_le (cexp x) e (cexp_le x e He Hx)). lra.
Qed.

Lemma scaled_le (x y : R) (c : Z) : x <= y -> x * bpow c <= y * bpow c.
Proof. intros H. pose proof (bpow_pos c). nra. Qed.

(** Rounding is monotone. *)
Lemma fl_monotone (x y : R) : x <= y -> fl x <= fl y.
Proof.
  intros Hxy.
  destruct (Z.eq_dec (cexp x) (cexp y)) as [Heq|Hne].
  - unfold fl. rewrite Heq.
    pose proof (rne_monotone _ _ (scaled_le x y (- cexp y) Hxy)) as Hm.
    apply IZR_le in Hm. pose proof (bpow_pos (cexp y)). nra.
  - pose proof (cexp_range x) as Hrx. pose proof (cexp_range y) as Hry.
    destruct (Rle_dec 0 x) as [Hx|Hx].
    + (* 0 <= x <= y, so y is in a higher binade *)
      assert (Hc : (cexp x < cexp y)%Z).
      { pose proof (cexp_monotone x y). rewrite !Rabs_pos_eq in H by lra.
        specialize (H Hxy). lia. }
      pose proof (cexp_upper x ltac:(lia)) as Hup. rewrite Rabs_pos_eq in Hup by lra.
      pose proof (cexp_lower y ltac:(lia)) as Hlo. rewrite Rabs_pos_eq in Hlo by lra.
      apply Rle_trans with (bpow (cexp x + 53)).
      * unfold fl. rewrite (bpow_add (cexp x) 53), (bpow_IZR 53) by lia.
        assert (Hs : x * bpow (- cexp x) <= IZR (2 ^ 53)).
        { rewrite <- bpow_IZR by lia. rewrite bpow_add in Hup.
          pose proof (bpow_cancel (cexp x)). pose proof (bpow_pos (- cexp x)).
          pose proof (bpow_pos (cexp x)). nra. }
        apply rne_monotone in Hs. rewrite rne_IZR in Hs. apply IZR_le in Hs.
        pose proof (bpow_pos (cexp x)). nra.
      * apply Rle_trans with (bpow (cexp y + 52)); [apply bpow_le; lia|].
        unfold fl. rewrite (bpow_add (cexp y) 52), (bpow_IZR 52) by lia.
        assert (Hs : IZR (2 ^ 52) <= y * bpow (- cexp y)).
        { rewrite <- bpow_IZR by lia. rewrite bpow_add in Hlo.
          pose proof (bpow_cancel (cexp y)). pose proof (bpow_pos (- cexp y)).
          pose proof (bpow_pos (cexp y)). nra. }
        apply rne_monotone in Hs. rewrite rne_IZR in Hs. apply IZR_le in Hs.
        pose proof (bpow_pos (cexp y)). nra.
    + apply Rnot_le_lt in Hx. destruct (Rle_dec 0 y) as [Hy|Hy].
      * (* x < 0 <= y *)
        apply Rle_trans with 0.
        -- unfold fl.
           assert (Hs : x * bpow (- cexp x) <= IZR 0).
           { pose proof (bpow_pos (- cexp x)). nra. }
           apply rne_monotone in Hs. rewrite rne_IZR in Hs. apply IZR_le in Hs.
           pose proof (bpow_pos (cexp x)). nra.
        -- unfold fl.
           assert (Hs : IZR 0 <= y * bpow (- cexp y)).
           { pose proof (bpow_pos (- cexp y)). nra. }
           apply rne_monotone in Hs. rewrite rne_IZR in Hs. apply IZR_le in Hs.
           pose proof (bpow_pos (cexp y)). nra.
      * (* x <= y < 0, so x is in a higher binade *)
        apply Rnot_le_lt in Hy.
        assert (Hc : (cexp y < cexp x)%Z).
        { pose proof (cexp_monotone y x). rewrite !Rabs_left in H by lra.
          specialize (H ltac:(lra)). lia. }
        pose proof (cexp_upper y ltac:(lia)) as Hup. rewrite Rabs_left in Hup by lra.
        pose proof (cexp_lower x ltac:(lia)) as Hlo. rewrite Rabs_left in Hlo by lra.
        apply Rle_trans with (- bpow (cexp x + 52)).
        -- unfold fl. rewrite (bpow_add (cexp x) 52), (bpow_IZR 52) by lia.
           assert (Hs : x * bpow (- cexp x) <= IZR (- 2 ^ 52)).
           { rewrite opp_IZR, <- bpow_IZR by lia. rewrite bpow_add in Hlo.
             pose proof (bpow_cancel (cexp x)). pose proof (bpow_pos (- cexp x)).
             pose proof (bpow_pos (cexp x)). nra. }
           apply rne_monotone in Hs. rewrite rne_IZR in Hs. apply IZR_le in Hs.
           rewrite opp_IZR in Hs. pose proof (bpow_pos (cexp x)). nra.
        -- apply Rle_trans with (- bpow (cexp y + 53)).
           ++ pose proof (bpow_le (cexp y + 53) (cexp x + 52) ltac:(lia)). lra.
           ++ unfold fl. rewrite (bpow_add (cexp y) 53), (bpow_IZR 53) by lia.
              assert (Hs : IZR (- 2 ^ 53) <= y * bpow (- cexp y)).
              { rewrite opp_IZR, <- bpow_IZR by lia. rewrite bpow_add in Hup.
                pose proof (bpow_cancel (cexp y)). pose proof (bpow_pos (- cexp y)).
                pose proof (bpow_pos (cexp y)). nra. }
              apply rne_monotone in Hs. rewrite rne_IZR in Hs. apply IZR_le in Hs.
              rewrite opp_IZR in Hs. pose proof (bpow_pos (cexp y)). nra.
Qed.

End Binary64.

(** ** Binary64 values *)

Lemma bpow_pos_val (p : positive) : Float.bpow (Zpos p) = IZR (2 ^ Zpos p).
Proof. apply bpow_IZR. lia. Qed.

Lemma bpow_neg_val (p : positive) : Float.bpow (Zneg p) = / IZR (2 ^ Zpos p).
Proof.
  change (Zneg p) with (- Zpos p)%Z. unfold Float.bpow.
  rewrite powerRZ_neg'. f_equal. apply bpow_pos_val.
Qed.

(** Writes the powers of two of the goal and of [H] as numerals. *)
Ltac numerals :=
  repeat match goal with
         | |- context [(2 ^ Zpos ?p)%Z] =>
             let v := eval vm_compute in (2 ^ Zpos p)%Z in
             change (2 ^ Zpos p)%Z with v
         end.

Ltac numerals_in H :=
  repeat match type of H with
         | context [(2 ^ Zpos ?p)%Z] =>
             let v := eval vm_compute in (2 ^ Zpos p)%Z in
             change (2 ^ Zpos p)%Z with v in H
         end.

(** A fraction with a numerator below [2^53] and a power of two as
    denominator is a binary64 number. *)
Lemma fl_dyadic (m : Z) (p : positive) :
  (Zpos p <= 1074)%Z -> (Z.abs m < 2 ^ 53)%Z ->
  Float.fl (IZR m / IZR (2 ^ Zpos p)) = IZR m / IZR (2 ^ Zpos p).
Proof.
  intros Hp Hm. unfold Rdiv. rewrite <- bpow_neg_val.
  apply fl_grid; [lia | exact Hm].
Qed.

(** A product that is such a fraction is computed exactly. *)
Lemma mul_exact (a b : R) (m : Z) (p : positive) :
  a * b = IZR m / IZR (2 ^ Zpos p) ->
  (Zpos p <= 1074)%Z -> (Z.abs m < 2 ^ 53)%Z ->
  Float.mul a b = a * b.
Proof.
  intros Hab Hp Hm. unfold Float.mul. rewrite Hab. apply fl_dyadic; assumption.
Qed.

Ltac exact_product m p :=
  rewrite (mul_exact _ _ m p); [ | numerals; lra | lia | lia].

Lemma abs_le_inv (a b : R) : Rabs a <= b -> - b <= a <= b.
Proof. unfold Rabs. destruct (Rcase_abs a); lra. Qed.

Lemma fl_le_IZR (a : R) (m : Z) :
  (Z.abs m < 2 ^ 53)%Z -> a <= IZR m -> Float.fl a <= IZR m.
Proof.
  intros Hm Ha. rewrite <- (fl_IZR m Hm). apply fl_monotone, Ha.
Qed.

Lemma fl_ge_IZR (a : R) (m : Z) :
  (Z.abs m < 2 ^ 53)%Z -> IZR m <= a -> IZR m <= Float.fl a.
Proof.
  intros Hm Ha. rewrite <- (fl_IZR m Hm). apply fl_monotone, Ha.
Qed.

Lemma mul_0_r (a : R) : Float.mul a 0 = 0.
Proof. unfold Float.mul. rewrite Rmult_0_r. apply fl_0. Qed.

Lemma mul_0_l (a : R) : Float.mul 0 a = 0.
Proof. unfold Float.mul. rewrite Rmult_0_l. apply fl_0. Qed.

Lemma div_at_origin (p : R) : Float.div 0 p = 0.
Proof.
  unfold Float.div. replace (0 / p) with 0 by (unfold Rdiv; ring). apply fl_0.
Qed.

Lemma sin_binary64_0 : Float.sin 0 = 0.
Proof. unfold Float.sin. rewrite sin_0. apply fl_0. Qed.

Lemma sin_binary64_bounds (a : R) : -1 <= Float.sin a <= 1.
Proof.
  pose proof (SIN_bound a) as [H1 H2]. unfold Float.sin. split.
  - apply (fl_ge_IZR _ (-1)); [lia | lra].
  - apply (fl_le_IZR _ 1); [lia | lra].
Qed.

(** A draw of [random.random()] is at most [1 - 2^-53]. *)
Lemma draw_below_one (r : R) :
  0 <= r < 1 /\ (exists k : Z, r * 9007199254740992 = IZR k) ->
  r * 9007199254740992 <= 9007199254740991.
Proof.
  intros [[H0 H1] [k Hk]]. rewrite Hk.
  assert (Hlt : IZR k < IZR 9007199254740992) by lra.
  apply lt_IZR in Hlt. apply IZR_le. lia.
Qed.

(** A fraction of [2^53] in the unit interval is such a draw. *)
Lemma constant_draws (k : Z) :
  (0 <= k < 9007199254740992)%Z ->
  Rand.unit_interval (Rand.constant (IZR k / 9007199254740992)).
Proof.
  intros [H0 H1] i. unfold Rand.constant.
  apply IZR_le in H0. apply IZR_lt in H1.
  split; [lra|]. exists k. lra.
Qed.

Ltac constant_source k :=
  let H := fresh "H" in
  let i := fresh "i" in
  let j := fresh "j" in
  let Hj := fresh "Hj" in
  pose proof (constant_draws k ltac:(lia)) as H;
  intros i; specialize (H i); unfold Rand.constant in *;
  destruct H as [_ [j Hj]]; split; [lra | exists j; lra].

(** ** Heart rate *)

Lemma sine_term_bounds (ts : R) :
  (-25 <= Float.int (Float.mul 25 (Float.sin (Float.div ts 0.5))) <= 25)%Z.
Proof.
  apply int_between; [lia|].
  pose proof (sin_binary64_bounds (Float.div ts 0.5)) as [H1 H2].
  unfold Float.mul. split.
  - apply (fl_ge_IZR _ (-25)); [lia | lra].
  - apply (fl_le_IZR _ 25); [lia | lra].
Qed.

Lemma heart_jitter_bounds (r : R) :
  0 <= r < 1 /\ (exists k : Z, r * 9007199254740992 = IZR k) ->
  (0 <= Float.int (Float.mul r 5) <= 4)%Z.
Proof.
  intros Hr. pose proof (draw_below_one r Hr) as Htop. destruct Hr as [[H0 H1] _].
  assert (0 <= Float.int (Float.mul r 5) < 5)%Z; [|lia].
  apply int_below. unfold Float.mul. split.
  - apply (fl_ge_IZR _ 0); [lia | lra].
  - pose proof (fl_error_below (r * 5) (-50) ltac:(lia)) as He.
    change (-50 + 53)%Z with 3%Z in He.
    rewrite bpow_pos_val, bpow_neg_val in He. numerals_in He.
    assert (Hx : Rabs (r * 5) < 8) by (rewrite Rabs_pos_eq; lra).
    specialize (He Hx). apply abs_le_inv in He. lra.
Qed.


Lemma sin_at_origin (p : R) : sin (0 / p) = 0.
Proof.
  replace (0 / p) with 0 by (unfold Rdiv; ring). exact sin_0.
Qed.

Lemma cos_at_origin (p : R) : cos (0 / p) = 1.
Proof.
  replace (0 / p) with 0 by (unfold Rdiv; ring). exact cos_0.
Qed.

Lemma int_0 : Float.int 0 = 0%Z.
Proof. apply int_eq_nonneg; lra. Qed.

(** The sine term at the origin. *)
Lemma sine_term_at_origin :
  Float.int (Float.mul 25 (Float.sin (Float.div 0 0.5))) = 0%Z.
Proof.
  rewrite div_at_origin, sin_binary64_0, mul_0_r. apply int_0.
Qed.




(** C9: for every timestamp and every source with draws in [0,1), the heart
    rate lies in the closed interval from 25 to 105. *)
Theorem heartRate_range (ts : R) (g : Rand.rng) :
  Rand.unit_interval g ->
  (25 <= heartRate (sample ts g) <= 105)%Z.
Proof.
  intros Hg. rewrite heartRate_eq.
  pose proof (sine_term_bounds ts).
  pose proof (heart_jitter_bounds (g 0%nat) (Hg 0%nat)).
  lia.
Qed.

Lemma heartRate_range_witness :
  Rand.unit_interval (Rand.constant 0.75) /\
  (25 <= heartRate (sample 0 (Rand.constant 0.75)) <= 105)%Z.
Proof.
  assert (H : Rand.unit_interval (Rand.constant 0.75))
    by constant_source 6755399441055744%Z.
  split; [exact H|].
  exact (heartRate_range 0 (Rand.constant 0.75) H).
Defined.

(** ** Oxygen saturation *)

Lemma oxygen_jitter_bounds (r : R) :
  0 <= r < 1 /\ (exists k : Z, r * 9007199254740992 = IZR k) ->
  (0 <= Float.int (Float.mul r 3) <= 2)%Z.
Proof.
  intros Hr. pose proof (draw_below_one r Hr) as Htop. destruct Hr as [[H0 H1] _].
  assert (0 <= Float.int (Float.mul r 3) < 3)%Z; [|lia].
  apply int_below. unfold Float.mul. split.
  - apply (fl_ge_IZR _ 0); [lia | lra].
  - pose proof (fl_error_below (r * 3) (-51) ltac:(lia)) as He.
    change (-51 + 53)%Z with 2%Z in He.
    rewrite bpow_pos_val, bpow_neg_val in He. numerals_in He.
    assert (Hx : Rabs (r * 3) < 4) by (rewrite Rabs_pos_eq; lra).
    specialize (He Hx). apply abs_le_inv in He. lra.
Qed.

Lemma oxygen_at_seven_eighths (ts : R) :
  oxygenSaturation (sample ts (Rand.constant 0.875)) = 98%Z.
Proof.
  rewrite oxygenSaturation_eq. unfold Rand.constant.
  exact_product 21%Z 3%positive.
  rewrite (int_eq_nonneg (0.875 * 3) 2); [reflexivity | lra | lra].
Qed.

(** C5 (as stated) fails: with every draw equal to 0.875 the code truncates
    the jitter [2.625] to 2 and returns 98, where the rounded formula gives
    99; and no source with draws in [0,1) makes the code return 99. *)
Lemma oxygenSaturation_99_fails :
  oxygenSaturation (sample 0 (Rand.constant 0.875)) = 98%Z /\
  (96 + Float.spec_round (0.875 * 3))%Z = 99%Z /\
  ~ (exists ts g, Rand.unit_interval g /\ oxygenSaturation (sample ts g) = 99%Z).
Proof.
  split; [|split].
  - apply oxygen_at_seven_eighths.
  - rewrite (spec_round_up (0.875 * 3) 2) by lra. reflexivity.
  - intros (ts & g & Hg & H99). rewrite oxygenSaturation_eq in H99.
    pose proof (oxygen_jitter_bounds (g 1%nat) (Hg 1%nat)). lia.
Qed.

(** C5 (amended): for every timestamp and every source of draws in [0,1),
    [oxygenSaturation] is 96 plus the jitter, the binary64 product [r * 3]
    truncated toward zero, a jitter of 0 to 2, and lies in the closed
    interval from 96 to 98 (so also in 96..99); 98 is attained for some
    draw and 99 never is. *)
Theorem oxygenSaturation_range (ts : R) (g : Rand.rng) :
  Rand.unit_interval g ->
  oxygenSaturation (sample ts g) = (96 + Float.int (Float.mul (g 1%nat) 3))%Z /\
  (0 <= Float.int (Float.mul (g 1%nat) 3) <= 2)%Z /\
  (96 <= oxygenSaturation (sample ts g) <= 98)%Z /\
  (exists g', Rand.unit_interval g' /\ oxygenSaturation (sample ts g') = 98%Z).
Proof.
  intros Hg. rewrite oxygenSaturation_eq.
  pose proof (oxygen_jitter_bounds (g 1%nat) (Hg 1%nat)) as Hj.
  split; [reflexivity|]. split; [exact Hj|]. split; [lia|].
  exists (Rand.constant 0.875).
  split; [constant_source 7881299347898368%Z | apply oxygen_at_seven_eighths].
Qed.

Lemma oxygenSaturation_range_witness :
  Rand.unit_interval (Rand.constant 0.5) /\
  (96 <= oxygenSaturation (sample 0 (Rand.constant 0.5)) <= 98)%Z.
Proof.
  assert (H : Rand.unit_interval (Rand.constant 0.5))
    by constant_source 4503599627370496%Z.
  split; [exact H|].
  exact (proj1 (proj2 (proj2 (oxygenSaturation_range 0 (Rand.constant 0.5) H)))).
Defined.

(** ** Timestamp *)

(** C4 (as stated) fails: at [ts = 0.09375] the product [ts * 1000] is
    [93.75]; the code truncates it to 93, the nearest integer is 94. *)
Lemma timestamp_rounded_fails :
  timestamp (sample 0.09375 (Rand.constant 0)) = 93%Z /\
  Float.spec_round (0.09375 * 1000) = 94%Z.
Proof.
  split.
  - rewrite timestamp_eq. exact_product 375%Z 2%positive.
    apply int_eq_nonneg; lra.
  - rewrite (spec_round_up (0.09375 * 1000) 93) by lra. reflexivity.
Qed.

(** Truncation toward zero: the sign is kept, the magnitude is not
    exceeded and less than one is cut off. *)
Lemma int_magnitude (a : R) :
  Rabs (IZR (Float.int a)) <= Rabs a < Rabs (IZR (Float.int a)) + 1 /\
  0 <= IZR (Float.int a) * a.
Proof.
  destruct (Rle_dec 0 a) as [Hp|Hn].
  - pose proof (int_nonneg _ Hp) as [H1 H2].
    assert (H0 : 0 <= IZR (Float.int a)).
    { apply IZR_le. apply (int_below a (Float.int a + 1)).
      rewrite plus_IZR. lra. }
    rewrite !Rabs_pos_eq by lra. split; [lra|]. nra.
  - apply Rnot_le_lt in Hn. pose proof (int_neg _ Hn) as [H1 H2].
    assert (H0 : IZR (Float.int a) <= 0).
    { apply IZR_le.
      assert (Hlt : IZR (Float.int a) < IZR 1) by lra.
      apply lt_IZR in Hlt. lia. }
    rewrite (Rabs_left a) by lra.
    destruct H0 as [H0|H0].
    + rewrite Rabs_left by lra. split; [lra|]. nra.
    + rewrite H0, Rabs_R0. split; [lra|]. lra.
Qed.

(** C4 (amended): for every timestamp [ts] the [timestamp] field is the
    binary64 product [ts * 1000] truncated toward zero: its magnitude does
    not exceed that of the product and is less than one below it, it has
    the sign of [ts], and the product is within half a unit in the last
    place of the exact one. *)
Theorem timestamp_truncated (ts : R) (g : Rand.rng) :
  timestamp (sample ts g) = Float.int (Float.mul ts 1000) /\
  Rabs (IZR (timestamp (sample ts g))) <= Rabs (Float.mul ts 1000)
    < Rabs (IZR (timestamp (sample ts g))) + 1 /\
  0 <= IZR (timestamp (sample ts g)) * ts /\
  Rabs (Float.mul ts 1000 - ts * 1000) <= Float.bpow (Float.cexp (ts * 1000)) / 2.
Proof.
  rewrite timestamp_eq. split; [reflexivity|].
  pose proof (int_magnitude (Float.mul ts 1000)) as [Hm Hs].
  split; [exact Hm|]. split; [|apply fl_error].
  destruct (Rle_dec 0 ts) as [Hp|Hn].
  - assert (H0 : 0 <= Float.mul ts 1000).
    { unfold Float.mul. apply (fl_ge_IZR _ 0); [lia | lra]. }
    destruct H0 as [H0|H0]; [nra|]. rewrite <- H0, int_0. lra.
  - apply Rnot_le_lt in Hn.
    assert (H0 : Float.mul ts 1000 <= 0).
    { unfold Float.mul. apply (fl_le_IZR _ 0); [lia | lra]. }
    destruct H0 as [H0|H0]; [nra|]. rewrite H0, int_0. lra.
Qed.


(** ** Where the last bit decides

    Three inputs at which the exact product lies just below an integer and
    the binary64 product is that integer: the float nearest to 0.29 as a
    timestamp, and the floats nearest to 0.6 and to 2/3 as draws. *)

Lemma timestamp_at_29_hundredths (g : Rand.rng) :
  timestamp (sample (5224175567749775 / 18014398509481984) g) = 290%Z.
Proof.
  rewrite timestamp_eq. unfold Float.mul.
  set (a := 5224175567749775 / 18014398509481984 * 1000).
  assert (Hc : Float.cexp a = (-44)%Z).
  { apply cexp_eq; [lia|].
    change (-44 + 52)%Z with 8%Z. change (-44 + 53)%Z with 9%Z.
    rewrite !bpow_pos_val. numerals.
    unfold a. rewrite Rabs_pos_eq by lra. lra. }
  rewrite (fl_eval a (-44) 5101733952880640 Hc).
  - rewrite bpow_neg_val. numerals. apply int_eq_nonneg; lra.
  - change (- -44)%Z with 44%Z. rewrite bpow_pos_val. numerals.
    apply (rne_above_half _ 5101733952880639). unfold a. lra.
Qed.

Lemma heartRate_at_6_tenths :
  heartRate (sample 0 (Rand.constant (5404319552844595 / 9007199254740992))) = 58%Z.
Proof.
  rewrite heartRate_eq, sine_term_at_origin. unfold Rand.constant, Float.mul.
  set (a := 5404319552844595 / 9007199254740992 * 5).
  assert (Hc : Float.cexp a = (-51)%Z).
  { apply cexp_eq; [lia|].
    change (-51 + 52)%Z with 1%Z. change (-51 + 53)%Z with 2%Z.
    rewrite !bpow_pos_val. numerals.
    unfold a. rewrite Rabs_pos_eq by lra. lra. }
  rewrite (fl_eval a (-51) 6755399441055744 Hc).
  - rewrite bpow_neg_val. numerals.
    rewrite (int_eq_nonneg _ 3); [reflexivity | lra | lra].
  - change (- -51)%Z with 51%Z. rewrite bpow_pos_val. numerals.
    apply (rne_above_half _ 6755399441055743). unfold a. lra.
Qed.

Lemma oxygenSaturation_at_2_thirds :
  oxygenSaturation (sample 0 (Rand.constant (6004799503160661 / 9007199254740992))) = 98%Z.
Proof.
  rewrite oxygenSaturation_eq. unfold Rand.constant, Float.mul.
  set (a := 6004799503160661 / 9007199254740992 * 3).
  assert (Hc : Float.cexp a = (-52)%Z).
  { apply cexp_eq; [lia|].
    change (-52 + 52)%Z with 0%Z. change (-52 + 53)%Z with 1%Z.
    rewrite bpow_pos_val. numerals. unfold Float.bpow. cbn [powerRZ].
    unfold a. rewrite Rabs_pos_eq by lra. lra. }
  rewrite (fl_eval a (-52) 9007199254740992 Hc).
  - rewrite bpow_neg_val. numerals.
    rewrite (int_eq_nonneg _ 2); [reflexivity | lra | lra].
  - change (- -52)%Z with 52%Z. rewrite bpow_pos_val. numerals.
    replace (a * 4503599627370496) with (IZR 9007199254740991 + 1 / 2)
      by (unfold a; lra).
    rewrite rne_tie. reflexivity.
Qed.

(** ** EEG bands *)

Lemma abs_sin_unit (a : R) : 0 <= Rabs (sin a) <= 1.
Proof.
  split; [apply Rabs_pos|].
  apply Rabs_le. apply SIN_bound.
Qed.

(** C7: for every timestamp each EEG band is the absolute value of the sine
    of [ts / period], with period 0.9 for alpha, 0.7 for beta, 0.5 for
    gamma, 1.2 for theta and 1.5 for delta, and every band lies in the
    closed unit interval. *)
Theorem eeg_bands (ts : R) (g : Rand.rng) :
  let e := eeg (sample ts g) in
  (alpha e = Rabs (sin (ts / 0.9)) /\
   beta e = Rabs (sin (ts / 0.7)) /\
   gamma e = Rabs (sin (ts / 0.5)) /\
   theta e = Rabs (sin (ts / 1.2)) /\
   delta e = Rabs (sin (ts / 1.5))) /\
  (0 <= alpha e <= 1 /\ 0 <= beta e <= 1 /\ 0 <= gamma e <= 1 /\
   0 <= theta e <= 1 /\ 0 <= delta e <= 1).
Proof.
  unfold sample. rewrite generate_sample_eq. cbn [fst eeg alpha beta gamma theta delta].
  split.
  - repeat split.
  - repeat apply conj; apply abs_sin_unit.
Qed.

(** ** EMG channels *)

(** C8: for every timestamp and every source, [emg] has exactly eight
    entries and entry [i] is [0.5 * sin (ts / (0.08 + i * 0.01))] plus
    [(r_i - 0.5) * 0.2], where [r_i] is the channel's own draw: draw
    [3 + i] of the call, so no two channels share a draw. *)
Theorem emg_channels (ts : R) (g : Rand.rng) (i : nat) :
  (i < 8)%nat ->
  length (emg (sample ts g)) = 8%nat /\
  nth_error (emg (sample ts g)) i =
    Some (0.5 * sin (ts / (0.08 + INR i * 0.01)) + (g (3 + i)%nat - 0.5) * 0.2).
Proof.
  intros Hi. rewrite emg_eq. split; [reflexivity|].
  do 8 (destruct i as [|i]; [reflexivity|]). lia.
Qed.

Lemma emg_channels_witness :
  (5 < 8)%nat /\
  nth_error (emg (sample 0 (Rand.constant 0.5))) 5 =
    Some (0.5 * sin (0 / (0.08 + INR 5 * 0.01)) + (0.5 - 0.5) * 0.2).
Proof.
  assert (H : (5 < 8)%nat) by lia.
  split; [exact H|].
  exact (proj2 (emg_channels 0 (Rand.constant 0.5) 5 H)).
Defined.

Lemma emg_value_range (ts : R) (i : nat) (r : R) :
  0 <= r < 1 -> -0.6 <= emg_value ts i r < 0.6.
Proof.
  intros Hr. unfold emg_value.
  pose proof (SIN_bound (ts / (0.08 + INR i * 0.01))). lra.
Qed.

(** C10 (as stated) fails: an EMG value does reach 0.6 in magnitude.  At
    [ts = -(PI/2) * 0.08] the sine of channel 0 is -1, and with the draw 0
    the channel value is [-0.5 - 0.1 = -0.6]. *)
Lemma emg_reaches_magnitude :
  Rand.unit_interval (Rand.constant 0) /\
  In (-0.6) (emg (sample (- (PI / 2) * 0.08) (Rand.constant 0))) /\
  Rabs (-0.6) = 0.6.
Proof.
  split; [constant_source 0%Z|]. split.
  - rewrite emg_eq. left. unfold emg_value, Rand.constant. cbn [INR].
    replace (- (PI / 2) * 0.08 / (0.08 + 0 * 0.01)) with (- (PI / 2)) by lra.
    rewrite sin_neg, sin_PI2. lra.
  - rewrite Rabs_left by lra. lra.
Qed.

(** C10 (amended): for every timestamp and every source of draws in
    [0,1), each of the EMG channel values lies in the closed interval
    from -0.6 to 0.6; the end -0.6 is reached. *)
Theorem emg_range (ts : R) (g : Rand.rng) (v : R) :
  Rand.unit_interval g ->
  In v (emg (sample ts g)) ->
  -0.6 <= v <= 0.6 /\
  (exists ts' g', Rand.unit_interval g' /\ In (-0.6) (emg (sample ts' g'))).
Proof.
  intros Hg Hv. split.
  - rewrite emg_eq in Hv.
    apply in_map_iff in Hv. destruct Hv as (i & <- & _).
    pose proof (emg_value_range ts i (g (3 + i)%nat) (proj1 (Hg (3 + i)%nat))). lra.
  - exists (- (PI / 2) * 0.08), (Rand.constant 0).
    split; [constant_source 0%Z|].
    rewrite emg_eq. left. unfold emg_value, Rand.constant. cbn [INR].
    replace (- (PI / 2) * 0.08 / (0.08 + 0 * 0.01)) with (- (PI / 2)) by lra.
    rewrite sin_neg, sin_PI2. lra.
Qed.

Lemma emg_range_witness :
  Rand.unit_interval (Rand.constant 0) /\
  In (-0.1) (emg (sample 0 (Rand.constant 0))) /\
  -0.6 <= -0.1 <= 0.6.
Proof.
  assert (Hg : Rand.unit_interval (Rand.constant 0)) by constant_source 0%Z.
  assert (Hin : In (-0.1) (emg (sample 0 (Rand.constant 0)))).
  { rewrite emg_eq. left. unfold emg_value, Rand.constant.
    rewrite sin_at_origin. lra. }
  split; [exact Hg|]. split; [exact Hin|].
  exact (proj1 (emg_range 0 (Rand.constant 0) (-0.1) Hg Hin)).
Defined.

(** ** The schema scenario *)

(** C2: at [ts = 0.0] with a source that always returns [0.0] the generator
    returns heart rate 55, oxygen saturation 96, lactate threshold 3.8,
    motion (0, 0.5, 0), first EMG entry -0.1, all five EEG bands 0 and
    timestamp 0. *)
Theorem schema_scenario :
  let s := sample 0 (Rand.constant 0) in
  heartRate s = 55%Z /\
  oxygenSaturation s = 96%Z /\
  lactateThreshold s = 3.8 /\
  motion s = {| x := 0; y := 0.5; z := 0 |} /\
  nth_error (emg s) 0 = Some (-0.1) /\
  eeg s = {| alpha := 0; beta := 0; gamma := 0; theta := 0; delta := 0 |} /\
  timestamp s = 0%Z.
Proof.
  unfold sample. rewrite generate_sample_eq.
  cbn [fst heartRate oxygenSaturation lactateThreshold motion emg eeg timestamp
       map seq nth_error].
  unfold emg_value, Rand.constant.
  rewrite !sin_at_origin, !cos_at_origin, Rabs_R0.
  rewrite sine_term_at_origin, !mul_0_l, int_0.
  repeat split.
  - lra.
  - f_equal; lra.
  - f_equal. lra.
Qed.

(** ** The draws of a call *)

(** The record depends on the eleven draws of the call only: sources
    that agree on them give the same record. *)
Lemma sample_eleven_draws (ts : R) (g1 g2 : Rand.rng) :
  (forall i, (i < 11)%nat -> g1 i = g2 i) ->
  sample ts g1 = sample ts g2.
Proof.
  intros Hag. unfold sample. rewrite !generate_sample_eq. cbn [fst].
  rewrite (Hag 0%nat), (Hag 1%nat), (Hag 2%nat) by lia.
  f_equal.
  apply map_ext_in. intros i Hi. apply in_seq in Hi.
  rewrite (Hag (3 + i)%nat) by lia. reflexivity.
Qed.

(** ** The connection handler *)

Section HandlerRuns.

Import Handler.

Variable w : env.

(** The loop itself never closes the connection. *)
Lemma stream_closes (fuel n : nat) (g : Rand.rng) :
  closes (fst (stream w fuel n g)) = [].
Proof.
  revert n g. induction fuel as [|fuel IH]; intros n g; [reflexivity|].
  cbn [stream]. destruct (generate_sample (time w n) g) as [smp g'].
  destruct (send_text w n); [|reflexivity].
  destruct (sleep w n); [|reflexivity].
  specialize (IH (S n) g'). destruct (stream w fuel (S n) g') as [tr r].
  exact IH.
Qed.

(** With fuel left for it, the loop runs up to the first iteration that
    raises and ends with what that iteration raised. *)
Lemma stream_raises (m : nat) (e : exn) :
  forall fuel n g,
    (forall k, (k < m)%nat -> send_text w (n + k) = Ok /\ sleep w (n + k) = Ok) ->
    fails_at w (n + m) e ->
    (m < fuel)%nat ->
    snd (stream w fuel n g) = Some e.
Proof.
  induction m as [|m IH]; intros fuel n g Hq Hf Hfuel.
  - destruct fuel as [|fuel]; [lia|].
    rewrite Nat.add_0_r in Hf.
    cbn [stream]. destruct (generate_sample (time w n) g) as [smp g'].
    destruct Hf as [Hs | [Hs Hz]]; rewrite Hs; [reflexivity|].
    rewrite Hz. reflexivity.
  - destruct fuel as [|fuel]; [lia|].
    cbn [stream]. destruct (generate_sample (time w n) g) as [smp g'].
    destruct (Hq 0%nat ltac:(lia)) as [Hs Hz]. rewrite Nat.add_0_r in Hs, Hz.
    rewrite Hs, Hz.
    assert (IH' : snd (stream w fuel (S n) g') = Some e).
    { apply IH; [| |lia].
      - intros k Hk. replace (S n + k)%nat with (n + S k)%nat by lia.
        apply Hq. lia.
      - replace (S n + m)%nat with (n + S m)%nat by lia. exact Hf. }
    destruct (stream w fuel (S n) g') as [tr r]. exact IH'.
Qed.

(** While no iteration has raised, the handler is still streaming. *)
Lemma stream_running (fuel : nat) :
  forall n g,
    (forall k, (k < fuel)%nat -> send_text w (n + k) = Ok /\ sleep w (n + k) = Ok) ->
    snd (stream w fuel n g) = None.
Proof.
  induction fuel as [|fuel IH]; intros n g Hq; [reflexivity|].
  cbn [stream]. destruct (generate_sample (time w n) g) as [smp g'].
  destruct (Hq 0%nat ltac:(lia)) as [Hs Hz]. rewrite Nat.add_0_r in Hs, Hz.
  rewrite Hs, Hz.
  assert (IH' : snd (stream w fuel (S n) g') = None).
  { apply IH. intros k Hk. replace (S n + k)%nat with (n + S k)%nat by lia.
    apply Hq. lia. }
  destruct (stream w fuel (S n) g') as [tr r]. exact IH'.
Qed.

Lemma closes_app (tr1 tr2 : list action) :
  closes (tr1 ++ tr2) = closes tr1 ++ closes tr2.
Proof. apply filter_app. Qed.

(** C3: take any run in which the connection was accepted, the iterations
    before [n] went through and iteration [n] raised the exception [e], an
    instance of [Exception].  If [e] is the peer's disconnect, the handler
    returns and has attempted no close.  Otherwise it has attempted exactly
    one close, with code 1011 and reason [str(e)]; it does not propagate
    [e]; and it returns whenever the close attempt returns or raises an
    [Exception] of its own. *)
Theorem handler_termination (fuel : nat) (g : Rand.rng) (n : nat) (e : exn) :
  accept w = Ok ->
  quiet_before w n ->
  fails_at w n e ->
  (n < fuel)%nat ->
  is_Exception e = true ->
  let run := websocket_telemetry w fuel g in
  match e with
  | WebSocketDisconnect =>
      closes (fst run) = [] /\ snd run = Returned
  | _ =>
      closes (fst run) = [Close 1011 (str e)] /\
      snd run <> Propagated e /\
      ((forall e', close w = Raise e' -> is_Exception e' = true) ->
       snd run = Returned)
  end.
Proof.
  intros Hacc Hq Hf Hfuel He run. subst run.
  unfold websocket_telemetry. rewrite Hacc.
  pose proof (stream_closes fuel 0 g) as Hcl.
  pose proof (stream_raises n e fuel 0%nat g Hq Hf Hfuel) as Hr.
  destruct (stream w fuel 0 g) as [tr r]. cbn [fst snd] in Hcl, Hr. subst r.
  destruct e as [|d|d]; [| |discriminate He].
  - cbn [fst snd]. split; [exact Hcl | reflexivity].
  - cbn [is_Exception close_with_reason fst snd str].
    split; [|split].
    + change (closes (Accept :: tr ++ [Close 1011 d]))
        with (closes (tr ++ [Close 1011 d])).
      rewrite closes_app, Hcl. reflexivity.
    + destruct (close w) as [|e']; [discriminate|].
      destruct (is_Exception e') eqn:He'; [discriminate|].
      intros Heq. inversion Heq; subst e'. discriminate He'.
    + intros Hsup. destruct (close w) as [|e']; [reflexivity|].
      rewrite (Hsup e' eq_refl). reflexivity.
Qed.

(** X9: an exception that is not an instance of [Exception] (a
    cancellation, say) is caught by neither clause: no close is attempted
    and it leaves the handler. *)
Lemma base_exception_propagates (fuel : nat) (g : Rand.rng) (n : nat) (d : string) :
  accept w = Ok ->
  quiet_before w n ->
  fails_at w n (BaseOnly d) ->
  (n < fuel)%nat ->
  closes (fst (websocket_telemetry w fuel g)) = [] /\
  snd (websocket_telemetry w fuel g) = Propagated (BaseOnly d).
Proof.
  intros Hacc Hq Hf Hfuel.
  unfold websocket_telemetry. rewrite Hacc.
  pose proof (stream_closes fuel 0 g) as Hcl.
  pose proof (stream_raises n _ fuel 0%nat g Hq Hf Hfuel) as Hr.
  destruct (stream w fuel 0 g) as [tr r]. cbn [fst snd] in Hcl, Hr. subst r.
  cbn [is_Exception fst snd]. split; [exact Hcl | reflexivity].
Qed.

End HandlerRuns.

Lemma handler_termination_witness :
  Handler.quiet_before Handler.broken_pipe 2 /\
  Handler.fails_at Handler.broken_pipe 2 (Handler.OtherException "broken pipe") /\
  Handler.closes (fst (Handler.websocket_telemetry Handler.broken_pipe 5 (Rand.constant 0.5)))
    = [Handler.Close 1011 "broken pipe"] /\
  snd (Handler.websocket_telemetry Handler.broken_pipe 5 (Rand.constant 0.5))
    = Handler.Returned.
Proof.
  assert (Hq : Handler.quiet_before Handler.broken_pipe 2).
  { intros k Hk. destruct k as [|[|k]]; [split; reflexivity | split; reflexivity | lia]. }
  assert (Hf : Handler.fails_at Handler.broken_pipe 2 (Handler.OtherException "broken pipe")).
  { left. reflexivity. }
  assert (Hlt : (2 < 5)%nat) by lia.
  pose proof (handler_termination Handler.broken_pipe 5 (Rand.constant 0.5) 2
                (Handler.OtherException "broken pipe") eq_refl Hq Hf Hlt eq_refl) as H.
  cbv beta iota zeta in H. destruct H as (Hc & _ & Hret).
  split; [exact Hq|]. split; [exact Hf|]. split; [exact Hc|].
  apply Hret. intros e' He'. injection He' as <-. reflexivity.
Defined.

(** * Further properties of the generator *)

Lemma sample_eq (ts : R) (g : Rand.rng) :
  sample ts g = fst (generate_sample ts g).
Proof. reflexivity. Qed.

(** The record depends on the source through the values of its draws
    only. *)
Lemma sample_ext (ts : R) (g1 g2 : Rand.rng) :
  (forall i, g1 i = g2 i) -> sample ts g1 = sample ts g2.
Proof.
  intros H. unfold sample. rewrite !generate_sample_eq. cbn [fst].
  rewrite (H 0%nat), (H 1%nat), (H 2%nat).
  f_equal. apply map_ext. intros i. rewrite H. reflexivity.
Qed.

(** Truncation toward zero is monotone. *)
Lemma int_monotone (a b : R) : a <= b -> (Float.int a <= Float.int b)%Z.
Proof.
  intros Hab.
  assert (H : IZR (Float.int a) < IZR (Float.int b + 1)); [|apply lt_IZR in H; lia].
  rewrite plus_IZR.
  destruct (Rle_dec 0 a) as [Ha|Ha].
  - pose proof (int_nonneg a Ha) as [H1 H2].
    pose proof (int_nonneg b ltac:(lra)) as [H3 H4]. lra.
  - apply Rnot_le_lt in Ha. pose proof (int_neg a Ha) as [H1 H2].
    destruct (Rle_dec 0 b) as [Hb|Hb].
    + pose proof (int_nonneg b Hb) as [H3 H4].
      assert (Hlo : IZR (Float.int a) < IZR 1) by lra.
      assert (Hhi : IZR (-1) < IZR (Float.int b)) by lra.
      apply lt_IZR in Hlo, Hhi.
      assert (Hz : (Float.int a <= Float.int b)%Z) by lia.
      apply IZR_le in Hz. lra.
    + apply Rnot_le_lt in Hb. pose proof (int_neg b Hb) as [H3 H4]. lra.
Qed.

Lemma quarter_turn : PI / 4 / 0.5 = PI / 2.
Proof. lra. Qed.

Lemma sin_abs_le (t : R) : Rabs (sin t) <= Rabs t.
Proof.
  assert (Hpos : forall u, 0 < u -> - u <= sin u <= u).
  { intros u Hu. pose proof (sin_lt_x u Hu). split; [|lra].
    destruct (Rle_dec u PI) as [Hle|Hgt].
    - pose proof (sin_ge_0 u ltac:(lra) Hle). lra.
    - pose proof (SIN_bound u). pose proof PI2_1. lra. }
  destruct (Rtotal_order t 0) as [Hneg|[Hz|Hp]].
  - pose proof (Hpos (- t) ltac:(lra)) as H. rewrite sin_neg in H.
    rewrite (Rabs_left t) by lra. apply Rabs_le. lra.
  - rewrite Hz, sin_0. lra.
  - pose proof (Hpos t Hp). rewrite (Rabs_pos_eq t) by lra. apply Rabs_le. lra.
Qed.

Lemma cos_near_one (d : R) : 1 - d * d / 2 <= cos d.
Proof.
  replace d with (2 * (d / 2)) at 3 by lra. rewrite cos_2a_sin.
  pose proof (sin_abs_le (d / 2)) as H.
  assert (Hs : sin (d / 2) * sin (d / 2) <= (d / 2) * (d / 2)).
  { unfold Rabs in H.
    destruct (Rcase_abs (sin (d / 2))), (Rcase_abs (d / 2)); nra. }
  nra.
Qed.

(** Just below one, rounding gives one. *)
Lemma fl_below_one :
  Float.fl (36028797018963967 / 36028797018963968) = 1.
Proof.
  set (a := 36028797018963967 / 36028797018963968).
  assert (Hc : Float.cexp a = (-53)%Z).
  { apply cexp_eq; [lia|].
    change (-53 + 52)%Z with (-1)%Z. change (-53 + 53)%Z with 0%Z.
    rewrite bpow_neg_val. numerals. unfold Float.bpow. cbn [powerRZ].
    unfold a. rewrite Rabs_pos_eq by lra. lra. }
  rewrite (fl_eval a (-53) 9007199254740992 Hc).
  - rewrite bpow_neg_val. numerals. lra.
  - change (- -53)%Z with 53%Z. rewrite bpow_pos_val. numerals.
    apply (rne_above_half _ 9007199254740991). unfold a. lra.
Qed.

(** The sine of the float nearest to a quarter turn is the float 1. *)
Lemma sin_quarter_turn : Float.sin (Float.fl (PI / 2)) = 1.
Proof.
  pose proof PI_4 as Hpi4. pose proof PI_RGT_0 as Hpi0.
  pose proof (fl_error_below (PI / 2) (-51) ltac:(lia)) as He.
  change (-51 + 53)%Z with 2%Z in He.
  rewrite bpow_pos_val, bpow_neg_val in He. numerals_in He.
  assert (Hx : Rabs (PI / 2) < 4) by (rewrite Rabs_pos_eq; lra).
  specialize (He Hx). apply abs_le_inv in He.
  set (p := Float.fl (PI / 2)) in *.
  assert (Hs : 36028797018963967 / 36028797018963968 <= sin p <= 1).
  { split; [|apply SIN_bound].
    rewrite <- (cos_shift p).
    pose proof (cos_near_one (PI / 2 - p)) as Hcos.
    assert (Hd : (PI / 2 - p) * (PI / 2 - p) <= / 18014398509481984) by nra.
    lra. }
  unfold Float.sin. apply Rle_antisym.
  - apply (fl_le_IZR _ 1); [lia | lra].
  - rewrite <- fl_below_one. apply fl_monotone. lra.
Qed.

(** X1: with draws in [0,1) the heart rate lies between 30 and 84, and both
    ends are reached: 30 at [ts = -PI/4] with draw 0, 84 at [ts = PI/4]
    with draw 0.9. *)
Theorem heartRate_tight :
  (forall ts g, Rand.unit_interval g -> (30 <= heartRate (sample ts g) <= 84)%Z) /\
  heartRate (sample (- (PI / 4)) (Rand.constant 0)) = 30%Z /\
  heartRate (sample (PI / 4) (Rand.constant 0.9)) = 84%Z.
Proof.
  split; [|split].
  - intros ts g Hg. rewrite heartRate_eq.
    pose proof (sine_term_bounds ts).
    pose proof (heart_jitter_bounds (g 0%nat) (Hg 0%nat)). lia.
  - rewrite heartRate_eq. unfold Rand.constant, Float.div.
    replace (- (PI / 4) / 0.5) with (- (PI / 2)) by lra.
    rewrite fl_opp. unfold Float.sin. rewrite sin_neg, fl_opp.
    fold (Float.sin (Float.fl (PI / 2))). rewrite sin_quarter_turn.
    exact_product (-50)%Z 1%positive.
    rewrite (int_eq_neg (25 * - (1)) (-25)) by lra.
    rewrite mul_0_l, int_0. reflexivity.
  - rewrite heartRate_eq. unfold Rand.constant, Float.div.
    rewrite quarter_turn, sin_quarter_turn.
    exact_product 50%Z 1%positive.
    rewrite (int_eq_nonneg (25 * 1) 25) by lra.
    exact_product 9%Z 1%positive.
    rewrite (int_eq_nonneg (0.9 * 5) 4) by lra. reflexivity.
Qed.

Lemma heartRate_tight_witness :
  Rand.unit_interval (Rand.constant 0.875) /\
  (30 <= heartRate (sample 1 (Rand.constant 0.875)) <= 84)%Z.
Proof.
  assert (H : Rand.unit_interval (Rand.constant 0.875))
    by constant_source 7881299347898368%Z.
  split; [exact H|].
  exact (proj1 heartRate_tight 1 (Rand.constant 0.875) H).
Defined.

(** X2: with draws in [0,1) the lactate threshold is at least 3.8 and
    strictly below 4.4. *)
Theorem lactateThreshold_range (ts : R) (g : Rand.rng) :
  Rand.unit_interval g ->
  3.8 <= lactateThreshold (sample ts g) < 4.4.
Proof.
  intros Hg. unfold sample. rewrite generate_sample_eq. cbn [fst lactateThreshold].
  pose proof (proj1 (Hg 2%nat)). lra.
Qed.

Lemma lactateThreshold_range_witness :
  Rand.unit_interval (Rand.constant 0.5) /\
  3.8 <= lactateThreshold (sample 0 (Rand.constant 0.5)) < 4.4.
Proof.
  assert (H : Rand.unit_interval (Rand.constant 0.5))
    by constant_source 4503599627370496%Z.
  split; [exact H|].
  exact (lactateThreshold_range 0 (Rand.constant 0.5) H).
Defined.

(** X3: whatever the timestamp and the draws, each motion axis lies
    between -0.5 and 0.5. *)
Theorem motion_range (ts : R) (g : Rand.rng) :
  let m := motion (sample ts g) in
  -0.5 <= x m <= 0.5 /\ -0.5 <= y m <= 0.5 /\ -0.5 <= z m <= 0.5.
Proof.
  unfold sample. rewrite generate_sample_eq. cbn [fst motion x y z].
  pose proof (SIN_bound (ts / 0.4)). pose proof (COS_bound (ts / 0.5)).
  pose proof (SIN_bound (ts / 0.7)). lra.
Qed.

(** X4: the two channels of period 0.7 are tied together: [eeg.beta] is
    twice the magnitude of [motion.z], whatever the timestamp and the
    draws. *)
Theorem shared_periods (ts : R) (g : Rand.rng) :
  let s := sample ts g in
  beta (eeg s) = 2 * Rabs (z (motion s)).
Proof.
  unfold sample. rewrite generate_sample_eq. cbn [fst motion eeg z beta].
  rewrite Rabs_mult, (Rabs_pos_eq 0.5) by lra. lra.
Qed.

(** X5: a later timestamp never gives a smaller [timestamp] field,
    whatever the draws. *)
Theorem timestamp_monotone (ts1 ts2 : R) (g1 g2 : Rand.rng) :
  ts1 <= ts2 ->
  (timestamp (sample ts1 g1) <= timestamp (sample ts2 g2))%Z.
Proof.
  intros H. rewrite !timestamp_eq. apply int_monotone.
  apply fl_monotone. lra.
Qed.

Lemma timestamp_monotone_witness :
  0.25 <= 0.5 /\
  (timestamp (sample 0.25 (Rand.constant 0)) <= timestamp (sample 0.5 step_source))%Z.
Proof.
  assert (H : 0.25 <= 0.5) by lra.
  split; [exact H|].
  exact (timestamp_monotone 0.25 0.5 (Rand.constant 0) step_source H).
Defined.

(** * Further properties of the connection handler *)

Section Sessions.

Import Handler Trace.

Variable w : env.

(** One call of the generator: the record, and the source eleven draws
    further. *)
Lemma generate_sample_pair (ts : R) (g : Rand.rng) :
  generate_sample ts g = (sample ts g, Rand.drop 11 g).
Proof. unfold sample. rewrite generate_sample_eq. reflexivity. Qed.

Lemma at_tick_sample (g0 g : Rand.rng) (n : nat) :
  at_tick g0 n g -> sample (time w n) g = sample_of_tick w g0 n.
Proof.
  intros H. unfold sample_of_tick. apply sample_ext.
  intros i. unfold Rand.drop. apply H.
Qed.

Lemma at_tick_next (g0 g : Rand.rng) (n : nat) :
  at_tick g0 n g -> at_tick g0 (S n) (Rand.drop 11 g).
Proof.
  intros H i. unfold Rand.drop. rewrite H. f_equal. lia.
Qed.

Lemma at_tick_start (g : Rand.rng) : at_tick g 0 g.
Proof. intros i. reflexivity. Qed.

(** The loop while nothing raises. *)
Lemma stream_quiet (g0 : Rand.rng) (fuel : nat) :
  forall n g,
    at_tick g0 n g ->
    (forall k, (k < fuel)%nat -> send_text w (n + k) = Ok /\ sleep w (n + k) = Ok) ->
    stream w fuel n g = (flat_map (tick w g0) (seq n fuel), None).
Proof.
  induction fuel as [|fuel IH]; intros n g Hg Hq; [reflexivity|].
  cbn [stream]. rewrite generate_sample_pair.
  destruct (Hq 0%nat ltac:(lia)) as [Hs Hz]. rewrite Nat.add_0_r in Hs, Hz.
  rewrite Hs, Hz, (IH (S n) (Rand.drop 11 g)).
  - cbn [seq flat_map tick app]. rewrite (at_tick_sample g0 g n Hg). reflexivity.
  - apply at_tick_next, Hg.
  - intros k Hk. replace (S n + k)%nat with (n + S k)%nat by lia. apply Hq. lia.
Qed.

(** The loop up to and including the first iteration that raises. *)
Lemma stream_failing (g0 : Rand.rng) (e : exn) (m : nat) :
  forall fuel n g,
    at_tick g0 n g ->
    (forall k, (k < m)%nat -> send_text w (n + k) = Ok /\ sleep w (n + k) = Ok) ->
    fails_at w (n + m) e ->
    (m < fuel)%nat ->
    stream w fuel n g =
      (flat_map (tick w g0) (seq n m) ++ failing_tick w g0 (n + m), Some e).
Proof.
  induction m as [|m IH]; intros fuel n g Hg Hq Hf Hfuel.
  - destruct fuel as [|fuel]; [lia|].
    rewrite Nat.add_0_r in *.
    cbn [stream seq flat_map app]. rewrite generate_sample_pair.
    rewrite (at_tick_sample g0 g n Hg). unfold failing_tick.
    destruct Hf as [Hs | [Hs Hz]]; rewrite Hs; [reflexivity|].
    rewrite Hz. reflexivity.
  - destruct fuel as [|fuel]; [lia|].
    cbn [stream]. rewrite generate_sample_pair.
    destruct (Hq 0%nat ltac:(lia)) as [Hs Hz]. rewrite Nat.add_0_r in Hs, Hz.
    rewrite Hs, Hz, (IH fuel (S n) (Rand.drop 11 g)).
    + cbn [seq flat_map tick app]. rewrite (at_tick_sample g0 g n Hg).
      replace (S n + m)%nat with (n + S m)%nat by lia. reflexivity.
    + apply at_tick_next, Hg.
    + intros k Hk. replace (S n + k)%nat with (n + S k)%nat by lia. apply Hq. lia.
    + replace (S n + m)%nat with (n + S m)%nat by lia. exact Hf.
    + lia.
Qed.

(** X6: on an accepted connection, as long as no send and no sleep raises
    the handler keeps streaming and neither returns nor closes: its calls
    are the accept followed, for each iteration [k], by one send of the
    sample made from the clock reading [k] and the draws [11 * k] to
    [11 * k + 10] of the session, and one sleep of 0.1 s. *)
Theorem streaming_trace (fuel : nat) (g : Rand.rng) :
  accept w = Ok ->
  (forall k, (k < fuel)%nat -> send_text w k = Ok /\ sleep w k = Ok) ->
  websocket_telemetry w fuel g =
    (Accept :: flat_map (tick w g) (seq 0 fuel), Streaming).
Proof.
  intros Hacc Hq. unfold websocket_telemetry. rewrite Hacc.
  rewrite (stream_quiet g fuel 0 g (at_tick_start g) Hq). reflexivity.
Qed.

(** X7: when iteration [n] is the first to raise and raises an instance
    of [Exception], the calls of the whole run are the accept, the [n]
    full iterations, the calls of iteration [n] up to the one that raised
    and, unless the peer disconnected, one close with code 1011: the
    failed call is not retried and nothing follows the close. *)
Theorem failing_trace (fuel : nat) (g : Rand.rng) (n : nat) (e : exn) :
  accept w = Ok ->
  quiet_before w n ->
  fails_at w n e ->
  (n < fuel)%nat ->
  is_Exception e = true ->
  fst (websocket_telemetry w fuel g) =
    Accept :: flat_map (tick w g) (seq 0 n) ++ failing_tick w g n ++
      match e with
      | WebSocketDisconnect => []
      | _ => [Close 1011 (str e)]
      end.
Proof.
  intros Hacc Hq Hf Hfuel He. unfold websocket_telemetry. rewrite Hacc.
  rewrite (stream_failing g e n fuel 0 g (at_tick_start g) Hq Hf Hfuel).
  cbn [Nat.add].
  destruct e as [|d|d]; [| |discriminate He].
  - cbn [fst]. rewrite app_nil_r. reflexivity.
  - cbn [is_Exception close_with_reason fst str]. rewrite <- app_assoc. reflexivity.
Qed.

Lemma payloads_app (tr1 tr2 : list action) :
  payloads (tr1 ++ tr2) = payloads tr1 ++ payloads tr2.
Proof.
  induction tr1 as [|a tr1 IH]; [reflexivity|].
  destruct a; cbn [app payloads]; rewrite IH; reflexivity.
Qed.

(** The sample sent at position [k] of the loop started at iteration [n]
    carries the clock reading of iteration [n + k]. *)
Lemma payload_timestamp (fuel : nat) :
  forall n g k smp,
    nth_error (payloads (fst (stream w fuel n g))) k = Some smp ->
    timestamp smp = Float.int (Float.mul (time w (n + k)) 1000).
Proof.
  induction fuel as [|fuel IH]; intros n g k smp H.
  - destruct k; discriminate H.
  - cbn [stream] in H. rewrite generate_sample_pair in H.
    assert (Hhead : forall rest, nth_error (sample (time w n) g :: rest) 0 = Some smp ->
                                 timestamp smp = Float.int (Float.mul (time w (n + 0)) 1000)).
    { intros rest Hr. injection Hr as <-. rewrite Nat.add_0_r. apply timestamp_eq. }
    destruct (send_text w n).
    + destruct (sleep w n).
      * specialize (IH (S n) (Rand.drop 11 g)).
        destruct (stream w fuel (S n) (Rand.drop 11 g)) as [tr r].
        cbn [fst payloads] in H, IH.
        destruct k as [|k]; [exact (Hhead _ H)|].
        replace (n + S k)%nat with (S n + k)%nat by lia. apply IH. exact H.
      * cbn [fst payloads] in H.
        destruct k as [|k]; [exact (Hhead _ H)|]. destruct k; discriminate H.
    + cbn [fst payloads] in H.
      destruct k as [|k]; [exact (Hhead _ H)|]. destruct k; discriminate H.
Qed.

(** The samples of a run are those of its loop. *)
Lemma handler_payloads (fuel : nat) (g : Rand.rng) :
  payloads (fst (websocket_telemetry w fuel g)) = [] \/
  payloads (fst (websocket_telemetry w fuel g)) = payloads (fst (stream w fuel 0 g)).
Proof.
  unfold websocket_telemetry. destruct (accept w); [|left; reflexivity].
  right. destruct (stream w fuel 0 g) as [tr [e|]]; [|reflexivity].
  destruct e as [|d|d]; cbn [is_Exception close_with_reason fst payloads];
    try reflexivity.
  rewrite payloads_app. cbn [payloads]. apply app_nil_r.
Qed.

(** X8: if the clock of the event loop does not go back, the timestamps
    of the samples sent over one connection never decrease, however the
    run ends. *)
Theorem session_timestamps_monotone (fuel : nat) (g : Rand.rng)
        (i j : nat) (a b : TelemetrySample) :
  monotone_clock w ->
  (i <= j)%nat ->
  nth_error (payloads (fst (websocket_telemetry w fuel g))) i = Some a ->
  nth_error (payloads (fst (websocket_telemetry w fuel g))) j = Some b ->
  (timestamp a <= timestamp b)%Z.
Proof.
  intros Hmono Hij Ha Hb.
  destruct (handler_payloads fuel g) as [Hnil|Heq].
  - rewrite Hnil in Ha. destruct i; discriminate Ha.
  - rewrite Heq in Ha, Hb.
    rewrite (payload_timestamp fuel 0 g i a Ha), (payload_timestamp fuel 0 g j b Hb).
    apply int_monotone, fl_monotone. cbn [Nat.add].
    pose proof (Hmono i j Hij). lra.
Qed.

End Sessions.

Lemma streaming_trace_witness :
  (forall k, (k < 3)%nat ->
     Handler.send_text Trace.steady k = Handler.Ok /\
     Handler.sleep Trace.steady k = Handler.Ok) /\
  Handler.websocket_telemetry Trace.steady 3 (Rand.constant 0.5) =
    (Handler.Accept ::
       flat_map (Trace.tick Trace.steady (Rand.constant 0.5)) (seq 0 3),
     Handler.Streaming).
Proof.
  assert (Hq : forall k, (k < 3)%nat ->
             Handler.send_text Trace.steady k = Handler.Ok /\
             Handler.sleep Trace.steady k = Handler.Ok).
  { intros k _. split; reflexivity. }
  split; [exact Hq|].
  exact (streaming_trace Trace.steady 3 (Rand.constant 0.5) eq_refl Hq).
Defined.

Lemma failing_trace_witness :
  Handler.quiet_before Handler.broken_pipe 2 /\
  Handler.fails_at Handler.broken_pipe 2 (Handler.OtherException "broken pipe") /\
  fst (Handler.websocket_telemetry Handler.broken_pipe 5 (Rand.constant 0.5)) =
    Handler.Accept ::
      flat_map (Trace.tick Handler.broken_pipe (Rand.constant 0.5)) (seq 0 2) ++
      Trace.failing_tick Handler.broken_pipe (Rand.constant 0.5) 2 ++
      [Handler.Close 1011 "broken pipe"].
Proof.
  assert (Hq : Handler.quiet_before Handler.broken_pipe 2).
  { intros k Hk. destruct k as [|[|k]]; [split; reflexivity | split; reflexivity | lia]. }
  assert (Hf : Handler.fails_at Handler.broken_pipe 2 (Handler.OtherException "broken pipe")).
  { left. reflexivity. }
  assert (Hlt : (2 < 5)%nat) by lia.
  split; [exact Hq|]. split; [exact Hf|].
  exact (failing_trace Handler.broken_pipe 5 (Rand.constant 0.5) 2
           (Handler.OtherException "broken pipe") eq_refl Hq Hf Hlt eq_refl).
Defined.

Lemma steady_clock : Trace.monotone_clock Trace.steady.
Proof.
  intros i j Hij. cbn [Handler.time Trace.steady].
  apply le_INR in Hij. lra.
Qed.

Lemma session_timestamps_monotone_witness :
  Trace.monotone_clock Trace.steady /\
  (timestamp (Trace.sample_of_tick Trace.steady (Rand.constant 0.5) 0)
   <= timestamp (Trace.sample_of_tick Trace.steady (Rand.constant 0.5) 2))%Z.
Proof.
  assert (Hq : forall k, (k < 3)%nat ->
             Handler.send_text Trace.steady (0 + k) = Handler.Ok /\
             Handler.sleep Trace.steady (0 + k) = Handler.Ok).
  { intros k _. split; reflexivity. }
  assert (Hrun : Trace.payloads
                   (fst (Handler.websocket_telemetry Trace.steady 3 (Rand.constant 0.5))) =
                 map (Trace.sample_of_tick Trace.steady (Rand.constant 0.5)) (seq 0 3)).
  { unfold Handler.websocket_telemetry. cbn [Handler.accept Trace.steady].
    change (Handler.stream
              {| Handler.accept := Handler.Ok;
                 Handler.time := fun n => INR n * 0.1;
                 Handler.send_text := fun _ => Handler.Ok;
                 Handler.sleep := fun _ => Handler.Ok;
                 Handler.close := Handler.Ok |})
      with (Handler.stream Trace.steady).
    rewrite (stream_quiet Trace.steady (Rand.constant 0.5) 3 0 (Rand.constant 0.5)
               (at_tick_start _) Hq).
    reflexivity. }
  split; [exact steady_clock|].
  apply (session_timestamps_monotone Trace.steady 3 (Rand.constant 0.5) 0 2 _ _
           steady_clock ltac:(lia)); rewrite Hrun; reflexivity.
Defined.

Lemma base_exception_propagates_witness :
  Handler.quiet_before Trace.cancelled 1 /\
  Handler.fails_at Trace.cancelled 1 (Handler.BaseOnly "cancelled") /\
  Handler.closes (fst (Handler.websocket_telemetry Trace.cancelled 3 (Rand.constant 0.5))) = [] /\
  snd (Handler.websocket_telemetry Trace.cancelled 3 (Rand.constant 0.5)) =
    Handler.Propagated (Handler.BaseOnly "cancelled").
Proof.
  assert (Hq : Handler.quiet_before Trace.cancelled 1).
  { intros k Hk. destruct k as [|k]; [split; reflexivity | lia]. }
  assert (Hf : Handler.fails_at Trace.cancelled 1 (Handler.BaseOnly "cancelled")).
  { right. split; reflexivity. }
  assert (Hlt : (1 < 3)%nat) by lia.
  split; [exact Hq|]. split; [exact Hf|].
  exact (base_exception_propagates Trace.cancelled 3 (Rand.constant 0.5) 1 "cancelled"
           eq_refl Hq Hf Hlt).
Defined.

(** * The status endpoint *)

Section StatusEndpoint.

Import Status.

(** ** The dict *)

Lemma getitem_setitem (d : dict) (k : string) (v : value) :
  getitem (setitem d k v) k = Some v.
Proof.
  induction d as [|[k' v'] d IH]; cbn [setitem getitem].
  - rewrite String.eqb_refl. reflexivity.
  - destruct (String.eqb k' k) eqn:E; cbn [getitem]; rewrite E; [reflexivity | exact IH].
Qed.

Lemma getitem_setitem_other (d : dict) (k k' : string) (v : value) :
  k <> k' -> getitem (setitem d k v) k' = getitem d k'.
Proof.
  intros Hne. induction d as [|[k0 v0] d IH]; cbn [setitem getitem].
  - destruct (String.eqb_spec k k'); [contradiction | reflexivity].
  - destruct (String.eqb_spec k0 k) as [->|Hk]; cbn [getitem].
    + destruct (String.eqb_spec k k'); [contradiction | reflexivity].
    + rewrite IH. reflexivity.
Qed.

(** Assigning to a key that is present keeps the keys and their order. *)
Lemma keys_setitem (d : dict) (k : string) (v : value) :
  In k (keys d) -> keys (setitem d k v) = keys d.
Proof.
  induction d as [|[k' v'] d IH]; intros Hin; [destruct Hin|].
  cbn [setitem]. destruct (String.eqb_spec k' k) as [->|Hk]; [reflexivity|].
  cbn [keys map fst] in *. destruct Hin as [Heq|Hin]; [contradiction|].
  f_equal. apply IH, Hin.
Qed.

(** Case analysis on what the probe meets: the import, the [db] object,
    its name and its collections. *)
Ltac probe_cases w :=
  destruct w as [[e | [[[ | v | e] [cs | e']] | ]] url nm];
  unfold test_database, probe, handle, list_collections;
  cbn [database_module name list_collection_names DATABASE_URL DATABASE_NAME
       listed working connected];
  try destruct (import_error e).

(** X10: whatever the database module does, the response has the same six
    keys in the same order and its [backend] entry says running. *)
Theorem response_schema (w : world) :
  keys (test_database w) = response_keys /\
  getitem (test_database w) "backend" = Some (VStr (check_mark ++ lit " Running")).
Proof.
  probe_cases w; split; reflexivity.
Qed.

(** X11: the [database_url] and [database_name] entries report the two
    environment variables only: set when the variable holds a non-empty
    string, not set when it is unset or empty.  What the probe stored there
    (a configured mark, the name of [db]) is always overwritten. *)
Theorem environment_entries (w : world) :
  getitem (test_database w) "database_url" = Some (set_or_not (DATABASE_URL w)) /\
  getitem (test_database w) "database_name" = Some (set_or_not (DATABASE_NAME w)) /\
  set_or_not (Some []) = set_or_not None.
Proof.
  split; [|split; [|reflexivity]].
  - unfold test_database.
    rewrite getitem_setitem_other by discriminate.
    apply getitem_setitem.
  - unfold test_database. apply getitem_setitem.
Qed.

(** X12: the [collections] entry holds the first ten of the names the
    probe listed, in their order, so at most ten; it is empty whenever the
    probe did not get to list them. *)
Theorem collections_entry (w : world) :
  getitem (test_database w) "collections" = Some (VList (firstn 10 (listed w))) /\
  (length (firstn 10 (listed w)) <= 10)%nat /\
  (working w = false -> listed w = []).
Proof.
  split; [|split].
  - probe_cases w; reflexivity.
  - apply firstn_le_length.
  - probe_cases w; intros H; try reflexivity; discriminate H.
Qed.

(** X13: [connection_status] says connected exactly when a [db] object was
    imported and reading its name did not raise; a failure to list the
    collections afterwards does not change it. *)
Theorem connection_status_entry (w : world) :
  getitem (test_database w) "connection_status" =
    Some (VStr (lit (if connected w then "Connected" else "Not Connected"))).
Proof.
  probe_cases w; reflexivity.
Qed.

(** X14: the [database] entry is always a string of at most 75
    characters: an error text is cut to its first 50 characters. *)
Theorem database_entry_bounded (w : world) :
  exists s, getitem (test_database w) "database" = Some (VStr s) /\
            (length s <= 75)%nat.
Proof.
  probe_cases w;
    (eexists; split; [reflexivity|]);
    repeat rewrite length_app;
    try (pose proof (firstn_le_length 50 (msg e)));
    try (pose proof (firstn_le_length 50 (msg e')));
    cbn [length check_mark cross_mark warning_sign lit map
         String.list_ascii_of_string] in *; lia.
Qed.

(** X15: the [database] entry says connected and working exactly when the
    probe went all the way; the placeholder it starts with and the
    intermediate available mark are never returned. *)
Theorem database_entry_working (w : world) :
  (getitem (test_database w) "database" =
     Some (VStr (check_mark ++ lit " Connected & Working")) <-> working w = true) /\
  getitem (test_database w) "database" <>
    Some (VStr (cross_mark ++ lit " Not Available")) /\
  getitem (test_database w) "database" <>
    Some (VStr (check_mark ++ lit " Available")).
Proof.
  probe_cases w; (split; [split|split]);
    cbn; try reflexivity; try discriminate; intros H; try reflexivity;
    discriminate H.
Qed.

(** X16: an [ImportError] raised by reading the name of [db] is reported
    as a missing database module, although the module was imported; the
    collections are then not listed and the status stays not connected. *)
Theorem import_error_from_name (w : world) (db : database) (e : exn) :
  database_module w = Imported (Some db) ->
  name db = NameRaises e ->
  import_error e = true ->
  getitem (test_database w) "database" =
    Some (VStr (cross_mark ++ lit " Database module not found (run enable-database first)")) /\
  getitem (test_database w) "collections" = Some (VList []) /\
  getitem (test_database w) "connection_status" = Some (VStr (lit "Not Connected")).
Proof.
  intros Hm Hn He. destruct w as [m url nm]. cbn [database_module] in Hm. subst m.
  unfold test_database, probe, handle. cbn [database_module]. rewrite Hn, He.
  repeat split; reflexivity.
Qed.

End StatusEndpoint.

Lemma import_error_from_name_witness :
  Status.database_module Status.moody = Status.Imported (Some Status.moody_db) /\
  Status.getitem (Status.test_database Status.moody) "database" =
    Some (Status.VStr (Status.cross_mark ++
            Status.lit " Database module not found (run enable-database first)")) /\
  Status.getitem (Status.test_database Status.moody) "collections" =
    Some (Status.VList []).
Proof.
  assert (Hm : Status.database_module Status.moody =
               Status.Imported (Some Status.moody_db)) by reflexivity.
  split; [exact Hm|].
  pose proof (import_error_from_name Status.moody Status.moody_db _ Hm eq_refl eq_refl)
    as (Hd & Hc & _).
  split; [exact Hd | exact Hc].
Defined.
